(** * A shallow embedding of the [ren] crate (OpenGL 4.5 safety layer)

    The OpenGL driver is an external collaborator.  It is modelled as a
    state of its own: the list of calls issued to it so far, and the data
    store of each buffer object.  Values the driver returns (new object
    ids, link and validation status) are inputs of the modelled functions.

    Rust panics ([panic!], failed [debug_assert_ne!], out of bounds
    indexing, arithmetic overflow in debug builds) are the [None] outcome
    of the monad [GL]: the function does not return, and the driver keeps
    the calls issued before the panic. *)

From Stdlib Require Import List ZArith NArith Bool Lia.
From Stdlib Require Import String.
Import ListNotations.
From Stdlib Require Import Init.Byte.
Open Scope Z_scope.

(** Whether the crate is compiled with [debug_assertions]. *)
Definition build := bool.

(** ** The driver state and the GL monad *)

Inductive gl_call : Type :=
| NamedBufferData (buf : N) (size : Z) (data : list byte) (usage : N)
| GetNamedBufferSubData (buf : N) (offset size : Z)
| AttachShader (program shader : N)
| DetachShader (program shader : N)
| BindFragDataLocation (program : N) (color : N)
| LinkProgram (program : N)
| ValidateProgram (program : N)
| VertexArrayVertexBuffer (vao binding_index buffer : N) (offset stride : Z)
| VertexArrayAttribBinding (vao attrib_index binding_index : N)
| EnableVertexArrayAttrib (vao index : N)
| VertexArrayAttribFormat (vao index : N) (size : Z) (type_ : N)
    (normalized : bool) (offset : N)
| TextureStorage2D (tex : N) (levels : Z) (internal_format : N) (w h : Z)
| TextureParameteri (tex : N) (name : N) (value : Z)
| ShaderSource (shader : N) (source : String.string)
| CompileShader (shader : N)
| TextureSubImage2D (tex : N) (level x y w h : Z) (format type_ : N)
| GetUniformLocation (program : N) (name : list byte)
| ProgramUniform1i (program : N) (location : Z) (v : Z)
| GetIntegerv (pname : N)
| Enable (cap : N)
| DebugMessageCallback
| DebugMessageControl (source type_ severity : N) (count : Z) (enabled : bool).

Record gl_state : Type := mk_gl_state {
  calls : list gl_call;             (* issued calls, oldest first *)
  store : N -> list byte            (* data store of each buffer object *)
}.

Definition GL (A : Type) : Type := gl_state -> option A * gl_state.

Definition ret {A} (a : A) : GL A := fun s => (Some a, s).

Definition bind {A B} (m : GL A) (k : A -> GL B) : GL B :=
  fun s => match m s with
           | (Some a, s') => k a s'
           | (None, s') => (None, s')
           end.

Notation "x <- m ;; k" := (bind m (fun x => k))
  (at level 61, m at next level, right associativity).
Notation "m ;;; k" := (bind m (fun _ => k))
  (at level 61, right associativity).

Lemma bind_some {A B} (m : GL A) (k : A -> GL B) (s : gl_state) (a : A) (s1 : gl_state) :
  m s = (Some a, s1) -> bind m k s = k a s1.
Proof. intros H. unfold bind. rewrite H. reflexivity. Qed.

(** [panic!] and failed assertions: the call never returns. *)
Definition panic {A} : GL A := fun s => (None, s).

(** [debug_assert_ne!(a, b)]: checked in debug builds only. *)
Definition debug_assert_ne (dbg : build) (a b : N) : GL unit :=
  if dbg && (a =? b)%N then panic else ret tt.

Definition emit (c : gl_call) : GL unit :=
  fun s => (Some tt, mk_gl_state (calls s ++ [c]) (store s)).

Fixpoint for_each {A} (f : A -> GL unit) (xs : list A) : GL unit :=
  match xs with
  | [] => ret tt
  | x :: xs' => f x ;;; for_each f xs'
  end.

(** ** Machine integers *)

Definition usize_modulus : Z := 2 ^ 64.

(** [a + b] on [usize]: a panic on overflow in debug builds, wrap-around
    in release builds. *)
Definition usize_add (dbg : build) (a b : Z) : GL Z :=
  if dbg then (if a + b <? usize_modulus then ret (a + b) else panic)
  else ret ((a + b) mod usize_modulus).

(** [x as isize] for a [usize] value [x]. *)
Definition usize_as_isize (x : Z) : Z :=
  if x <? 2 ^ 63 then x else x - usize_modulus.

(** ** Driver semantics of the buffer calls (OpenGL 4.5, 6.2 and 6.3) *)

(** [glNamedBufferData]: the new data store holds [size] bytes of [data]. *)
Definition gl_NamedBufferData (buf : N) (size : Z) (data : list byte) (usage : N)
  : GL unit :=
  fun s => (Some tt, mk_gl_state (calls s ++ [NamedBufferData buf size data usage])
                      (fun b => if (b =? buf)%N then data else store s b)).

(** [glGetNamedBufferSubData]: copies [size] bytes from [offset] into the
    destination; a negative [offset] or [size], or a range past the end of
    the data store, is [GL_INVALID_VALUE] and copies nothing. *)
Definition gl_GetNamedBufferSubData (buf : N) (offset size : Z) (dst : list byte)
  : GL (list byte) :=
  fun s =>
    let s' := mk_gl_state (calls s ++ [GetNamedBufferSubData buf offset size])
                          (store s) in
    let d := store s buf in
    if (offset <? 0) || (size <? 0) || (Z.of_nat (List.length d) <? offset + size)
    then (Some dst, s')
    else (Some (firstn (Z.to_nat size) (skipn (Z.to_nat offset) d)), s').

(** ** [gl45/buffer.rs] *)
Module Buffer.

Inductive BufferUsage := Stream | Static | Dynamic.

Definition gl_draw_usage (u : BufferUsage) : N :=
  match u with
  | Stream => 0x88E0   (* gl::STREAM_DRAW *)
  | Static => 0x88E4   (* gl::STATIC_DRAW *)
  | Dynamic => 0x88E8  (* gl::DYNAMIC_DRAW *)
  end%N.

Record Buffer := mk_buffer { handle : N; size : Z }.

(** [create_multi]: [handles] are the ids [gl::CreateBuffers] wrote. *)
Definition create_multi (dbg : build) (handles : list N) : GL (list Buffer) :=
  for_each (fun h => debug_assert_ne dbg h 0) handles ;;;
  ret (map (fun h => mk_buffer h 0) handles).

(** [write]: [data] is the byte view of the slice [&[T]]
    ([data.as_ptr() as *const c_void]), so its length is
    [data.len() * mem::size_of::<T>()]. *)
Definition write (self : Buffer) (usage : BufferUsage) (data : list byte)
  : GL Buffer :=
  let self := mk_buffer (handle self) (Z.of_nat (List.length data)) in
  gl_NamedBufferData (handle self) (usize_as_isize (size self)) data
    (gl_draw_usage usage) ;;;
  ret self.

(** [read]: [data] is the byte view of the destination slice [&mut [T]];
    the result is its contents after the call. *)
Definition read (dbg : build) (self : Buffer) (offset : Z) (data : list byte)
  : GL (list byte) :=
  let read_size := Z.of_nat (List.length data) in
  read_end <- usize_add dbg offset read_size ;;
  if size self <? read_end then panic
  else gl_GetNamedBufferSubData (handle self) (usize_as_isize offset)
         (usize_as_isize read_size) data.

Definition size_of (self : Buffer) : Z := size self.


End Buffer.

(** [as i32] on a [u32] value. *)
Definition u32_as_i32 (x : Z) : Z :=
  if x <? 2 ^ 31 then x else x - 2 ^ 32.

(** ** [gl45/attrib.rs] *)
Module Attrib.

Inductive AttribKind := Float1 | Float2 | Float3 | Float4.

Definition gl_size_type (k : AttribKind) : Z * N :=
  match k with
  | Float1 => (1, 0x1406%N)   (* gl::FLOAT *)
  | Float2 => (2, 0x1406%N)
  | Float3 => (3, 0x1406%N)
  | Float4 => (4, 0x1406%N)
  end.

Record AttribFormat := mk_attrib_format {
  index : N; kind : AttribKind; offset : N }.

Definition apply (self : AttribFormat) (vao : N) : GL unit :=
  let '(size, type_) := gl_size_type (kind self) in
  emit (VertexArrayAttribFormat vao (index self) size type_ false (offset self)).

Definition enable (self : AttribFormat) (vao : N) : GL unit :=
  emit (EnableVertexArrayAttrib vao (index self)).

Record AttribBinding := mk_attrib_binding {
  attrib_index : N; buffer_binding_index : N }.

Definition binding_apply (self : AttribBinding) (vao : N) : GL unit :=
  emit (VertexArrayAttribBinding vao (attrib_index self) (buffer_binding_index self)).

Record AttribBindPoint := mk_attrib_bind_point {
  binding_index : N; bp_offset : N; stride : N }.

Definition bind_point_apply (self : AttribBindPoint) (vao buffer : N) : GL unit :=
  emit (VertexArrayVertexBuffer vao (binding_index self) buffer
          (Z.of_N (bp_offset self)) (u32_as_i32 (Z.of_N (stride self)))).

End Attrib.

(** ** [gl45/array.rs] *)
Module Array.
Import Attrib.

Record VertexArrayDesc := mk_desc {
  buffers : list Buffer.Buffer;
  bind_points : list AttribBindPoint;
  bindings : list AttribBinding;
  attribs : list AttribFormat }.

Definition new_desc : VertexArrayDesc := mk_desc [] [] [] [].

Definition with_buffer (self : VertexArrayDesc) (b : Buffer.Buffer) : VertexArrayDesc :=
  mk_desc (buffers self ++ [b]) (bind_points self) (bindings self) (attribs self).
Definition with_bind_point (self : VertexArrayDesc) (bp : AttribBindPoint) : VertexArrayDesc :=
  mk_desc (buffers self) (bind_points self ++ [bp]) (bindings self) (attribs self).
Definition with_binding (self : VertexArrayDesc) (b : AttribBinding) : VertexArrayDesc :=
  mk_desc (buffers self) (bind_points self) (bindings self ++ [b]) (attribs self).
Definition with_attrib (self : VertexArrayDesc) (a : AttribFormat) : VertexArrayDesc :=
  mk_desc (buffers self) (bind_points self) (bindings self) (attribs self ++ [a]).

(** [self.buffers[i]]: panics when [i] is out of bounds. *)
Definition index_buffer (bufs : list Buffer.Buffer) (i : nat) : GL Buffer.Buffer :=
  match nth_error bufs i with
  | Some b => ret b
  | None => panic
  end.

(** [for (buffer_index, bind_point) in self.bind_points.iter().enumerate()]
    starting at [buffer_index = i]. *)
Fixpoint apply_bind_points (vao : N) (bufs : list Buffer.Buffer)
    (bps : list AttribBindPoint) (i : nat) : GL unit :=
  match bps with
  | [] => ret tt
  | bp :: bps' =>
      buffer <- index_buffer bufs i ;;
      bind_point_apply bp vao (Buffer.handle buffer) ;;;
      apply_bind_points vao bufs bps' (S i)
  end.

Definition apply (self : VertexArrayDesc) (vao : N) : GL unit :=
  apply_bind_points vao (buffers self) (bind_points self) 0 ;;;
  for_each (fun b => binding_apply b vao) (bindings self) ;;;
  for_each (fun a => enable a vao ;;; Attrib.apply a vao) (attribs self).

Record VertexArray := mk_vertex_array { handle : N }.

(** [create]: [h] is the id [gl::CreateVertexArrays] wrote. *)
Definition create (dbg : build) (h : N) : GL VertexArray :=
  debug_assert_ne dbg h 0 ;;;
  ret (mk_vertex_array h).

Definition new (dbg : build) (h : N) (desc : VertexArrayDesc) : GL VertexArray :=
  arr <- create dbg h ;;
  apply desc (handle arr) ;;;
  ret arr.

End Array.

(** ** [gl45/texture.rs] *)
Module Texture.

Inductive InternalFormat := R8 | Rg8 | Rgb8 | Rgba8.

Definition internal_format_gl (f : InternalFormat) : N :=
  match f with
  | R8 => 0x8229 | Rg8 => 0x822B | Rgb8 => 0x8051 | Rgba8 => 0x8058
  end%N.

Record Texture := mk_texture { handle : N; size : Z * Z }.

Definition set_parameter (self : Texture) (name : N) (value : Z) : GL unit :=
  emit (TextureParameteri (handle self) name value).

(** [set_wrap(TextureWrap::ClampToEdge)] and [set_filter(TextureFilter::Nearest)]. *)
Definition set_wrap (self : Texture) (wrap : Z) : GL unit :=
  set_parameter self 0x2802 wrap ;;; set_parameter self 0x2803 wrap.
Definition set_filter (self : Texture) (filter : Z) : GL unit :=
  set_parameter self 0x2801 filter ;;; set_parameter self 0x2800 filter.

(** [create]: [h] is the id [gl::CreateTextures] wrote. *)
Definition create (dbg : build) (h : N) (size : Z * Z) (fmt : InternalFormat)
  : GL Texture :=
  debug_assert_ne dbg h 0 ;;;
  let tex := mk_texture h size in
  emit (TextureStorage2D h 1 (internal_format_gl fmt)
          (u32_as_i32 (fst size)) (u32_as_i32 (snd size))) ;;;
  set_wrap tex 0x812F ;;;        (* TextureWrap::default() = ClampToEdge *)
  set_filter tex 0x2600 ;;;      (* TextureFilter::default() = Nearest *)
  set_parameter tex 0x813C 0 ;;; (* gl::TEXTURE_BASE_LEVEL *)
  set_parameter tex 0x813D 0 ;;; (* gl::TEXTURE_MAX_LEVEL *)
  ret tex.

Inductive PixelFormat := R | Rg | Rgb | Rgba.

Definition pixel_format_gl (f : PixelFormat) : N :=
  match f with R => 0x1903 | Rg => 0x8227 | Rgb => 0x1907 | Rgba => 0x1908 end%N.

Definition u32_modulus : Z := 2 ^ 32.

(** [a + b] and [a * b] on [u32] in a debug build: a panic on overflow. *)
Definition u32_add_checked (a b : Z) : GL Z :=
  if a + b <? u32_modulus then ret (a + b) else panic.
Definition u32_mul_checked (a b : Z) : GL Z :=
  if a * b <? u32_modulus then ret (a * b) else panic.

(** [debug_assert!(cond)]: the condition is evaluated, with overflow
    checks, in debug builds only. *)
Definition debug_assert (dbg : build) (cond : GL bool) : GL unit :=
  if dbg then (c <- cond ;; if c then ret tt else panic) else ret tt.

Definition i32_MAX : Z := 2 ^ 31 - 1.

(** [upload_sub_image_data_from_ptr]; the pixel data behind the pointer is
    read by the driver and is not part of the model. *)
Definition upload_sub_image_data_from_ptr (dbg : build) (self : Texture)
    (xy wh : Z * Z) (format : PixelFormat) : GL unit :=
  let '(x, y) := xy in
  let '(width, height) := wh in
  debug_assert dbg (ret (x <? i32_MAX)) ;;;
  debug_assert dbg (ret (y <? i32_MAX)) ;;;
  debug_assert dbg (ret (width <? i32_MAX)) ;;;
  debug_assert dbg (ret (height <? i32_MAX)) ;;;
  debug_assert dbg (e <- u32_add_checked x width ;; ret (e <=? fst (size self))) ;;;
  debug_assert dbg (e <- u32_add_checked y height ;; ret (e <=? snd (size self))) ;;;
  debug_assert dbg (a <- u32_mul_checked (fst (size self)) (snd (size self)) ;;
                    b <- u32_mul_checked width height ;; ret (b <=? a)) ;;;
  emit (TextureSubImage2D (handle self) 0 (u32_as_i32 x) (u32_as_i32 y)
          (u32_as_i32 width) (u32_as_i32 height) (pixel_format_gl format)
          0x1401 (* gl::UNSIGNED_BYTE *)).

(** [upload_sub_image_data]: [(width as usize) * (height as usize)] cannot
    overflow a [usize]. *)
Definition upload_sub_image_data (dbg : build) (self : Texture) (xy wh : Z * Z)
    (format : PixelFormat) (pixels : list byte) : GL unit :=
  debug_assert dbg (ret (fst wh * snd wh <=? Z.of_nat (List.length pixels))) ;;;
  upload_sub_image_data_from_ptr dbg self xy wh format.

Definition upload_image_data (dbg : build) (self : Texture) (wh : Z * Z)
    (format : PixelFormat) (pixels : list byte) : GL unit :=
  upload_sub_image_data dbg self (0, 0) wh format pixels.

End Texture.

(** ** [gl45/shader.rs] *)
Module Shader.

Inductive ShaderStageKind := Vertex | Fragment | Geometry | Compute.

Definition kind_gl (k : ShaderStageKind) : N :=
  match k with
  | Vertex => 0x8B31 | Fragment => 0x8B30 | Geometry => 0x8DD9 | Compute => 0x91B9
  end%N.

Record ShaderStage := mk_stage { stage_handle : N; stage_kind : ShaderStageKind }.

Inductive ShaderStageError :=
| Compile (raw : N) (kind : ShaderStageKind) (log : String.string).

(** What the driver answers to the queries of [compile]: the
    [COMPILE_STATUS] and the info log ([None] for an empty log). *)
Record compile_answer := mk_compile_answer {
  compile_status : bool; compile_log : option String.string }.

Definition no_log : String.string := "[no log]"%string.

Definition compile (self : ShaderStage) (source : String.string)
    (drv : compile_answer) : GL (ShaderStage + ShaderStageError) :=
  emit (ShaderSource (stage_handle self) source) ;;;
  emit (CompileShader (stage_handle self)) ;;;
  if compile_status drv then ret (inl self)
  else ret (inr (Compile (stage_handle self) (stage_kind self)
                   (match compile_log drv with Some l => l | None => no_log end))).

(** [ShaderStage::create]: [h] is the id [gl::CreateShader] returned. *)
Definition stage_create (dbg : build) (h : N) (kind : ShaderStageKind)
    (source : String.string) (drv : compile_answer)
  : GL (ShaderStage + ShaderStageError) :=
  debug_assert_ne dbg h 0 ;;;
  compile (mk_stage h kind) source drv.

Record Shader := mk_shader { handle : N }.

Inductive ShaderError :=
| Link (raw : N) (log : String.string)
| Validation (raw : N) (log : String.string).

(** What the driver answers to the queries of [link] and [validate]. *)
Record program_answer := mk_program_answer {
  link_status : bool; link_log : option String.string;
  validate_status : bool; validate_log : option String.string }.

Definition check_log (was_success : bool) (log : option String.string)
  : unit + String.string :=
  if was_success then inl tt
  else inr (match log with Some l => l | None => no_log end).

Definition bind_data_locations (self : Shader) : GL unit :=
  emit (BindFragDataLocation (handle self) 0).

Definition link (self : Shader) (drv : program_answer) : GL (unit + ShaderError) :=
  emit (LinkProgram (handle self)) ;;;
  match check_log (link_status drv) (link_log drv) with
  | inl u => ret (inl u)
  | inr log => ret (inr (Link (handle self) log))
  end.

Definition validate (self : Shader) (drv : program_answer) : GL (unit + ShaderError) :=
  emit (ValidateProgram (handle self)) ;;;
  match check_log (validate_status drv) (validate_log drv) with
  | inl u => ret (inl u)
  | inr log => ret (inr (Validation (handle self) log))
  end.

(** [init]: the [?] operator returns the first error. *)
Definition init (self : Shader) (drv : program_answer) : GL (unit + ShaderError) :=
  bind_data_locations self ;;;
  r <- link self drv ;;
  match r with
  | inr e => ret (inr e)
  | inl _ =>
      r' <- validate self drv ;;
      match r' with
      | inr e => ret (inr e)
      | inl _ => ret (inl tt)
      end
  end.

Definition attach_shader (dbg : build) (program shader : N) : GL unit :=
  debug_assert_ne dbg program 0 ;;;
  debug_assert_ne dbg shader 0 ;;;
  emit (AttachShader program shader).

Definition detach_shader (dbg : build) (program shader : N) : GL unit :=
  debug_assert_ne dbg program 0 ;;;
  debug_assert_ne dbg shader 0 ;;;
  emit (DetachShader program shader).

Definition attach_shaders (dbg : build) (program : N) (shaders : list N) : GL unit :=
  for_each (attach_shader dbg program) shaders.

Definition detach_shaders (dbg : build) (program : N) (shaders : list N) : GL unit :=
  for_each (detach_shader dbg program) shaders.

(** [Shader::create]: [h] is the id [gl::CreateProgram] returned. *)
Definition create (dbg : build) (h : N) (stages : list ShaderStage)
    (drv : program_answer) : GL (Shader + ShaderError) :=
  debug_assert_ne dbg h 0 ;;;
  let shader := mk_shader h in
  attach_shaders dbg (handle shader) (map stage_handle stages) ;;;
  res <- init shader drv ;;
  detach_shaders dbg (handle shader) (map stage_handle stages) ;;;
  match res with
  | inl _ => ret (inl shader)
  | inr err => ret (inr err)
  end.

(** Driver semantics of [glAttachShader] and [glDetachShader]: the shaders
    attached to [program] after [cs], starting from [att].  Attaching an
    attached shader, or detaching one that is not attached, is
    [GL_INVALID_OPERATION] and changes nothing. *)
Fixpoint attached_after (program : N) (att : list N) (cs : list gl_call) : list N :=
  match cs with
  | [] => att
  | AttachShader p s :: cs' =>
      if (p =? program)%N then
        attached_after program
          (if existsb (N.eqb s) att then att else s :: att) cs'
      else attached_after program att cs'
  | DetachShader p s :: cs' =>
      if (p =? program)%N then
        attached_after program (filter (fun x => negb (N.eqb s x)) att) cs'
      else attached_after program att cs'
  | _ :: cs' => attached_after program att cs'
  end.

End Shader.

(** ** [app.rs] *)
Module App.

Definition CARGO_PKG_NAME : string := "ren".

Record AppOptions := mk_opts {
  title : string;
  window_size : Z * Z;
  gl_version : Z * Z;
  gl_debug_output : bool }.

(** [AppOptions::default()]; [DEFAULT_GL_DEBUG_OUTPUT] is
    [cfg!(debug_assertions)]. *)
Definition default_opts (dbg : build) : AppOptions :=
  mk_opts CARGO_PKG_NAME (856, 482) (4, 5) dbg.

Definition is_debug_output_supported (v : Z * Z) : bool :=
  ((fst v =? 4) && (3 <=? snd v)) || (4 <? fst v).

Inductive Key := Escape | OtherKey (code : Z).
Inductive Action := Release | Press | Repeat.

(** The events [init] enables polling for (their float payloads are
    irrelevant here and kept as [Z]). *)
Inductive WindowEvent :=
| FramebufferSize (w h : Z)
| KeyEvt (key : Key) (scancode : Z) (action : Action) (mods : Z)
| MouseButtonEvt (button : Z) (action : Action) (mods : Z)
| CursorPos (x y : Z)
| Scroll (x y : Z)
| Close.

Inductive WindowHint :=
| ContextVersion (major minor : Z)
| OpenGlProfileCore
| OpenGlForwardCompat (b : bool)
| OpenGlDebugContext (b : bool)
| Visible (b : bool).

(** The observable effects of a run: calls into GLFW, into OpenGL and into
    the user's [App]. *)
Inductive effect :=
| GlfwInit
| SetWindowHint (h : WindowHint)
| CreateWindow (w h : Z) (title : string)
| EnablePolling
| TryCenter
| MakeCurrent
| LoadGl
| InitDebugOutput
| ShowWindow
| NewRenderingContext
| CallInit
| ShouldClose
| PollEvents
| Viewport (x y w h : Z)
| CallOnEvent (e : WindowEvent)
| CallUpdate
| CallDraw
| SwapBuffers
| ReportGlErrors
| CallHeadless
| CallRaw.

(** [fn init(opts, visible)]: the one-time GLFW and OpenGL setup. *)
Definition init (opts : AppOptions) (visible : bool) : list effect :=
  [GlfwInit;
   SetWindowHint (ContextVersion (fst (gl_version opts)) (snd (gl_version opts)));
   SetWindowHint OpenGlProfileCore;
   SetWindowHint (OpenGlForwardCompat true);
   SetWindowHint (OpenGlDebugContext
     (gl_debug_output opts && is_debug_output_supported (gl_version opts)));
   SetWindowHint (Visible false);
   CreateWindow 1280 720 CARGO_PKG_NAME;
   EnablePolling; TryCenter; MakeCurrent; LoadGl]
  ++ (if gl_debug_output opts && is_debug_output_supported (gl_version opts)
      then [InitDebugOutput] else [])
  ++ (if visible then [ShowWindow] else []).

(** The built-in handling of one event in the [match evt] of
    [_run_app_with]: [None] is [break 'main]. *)
Definition builtin (dbg : build) (evt : WindowEvent) : option (list effect) :=
  match evt with
  | FramebufferSize w h => Some [Viewport 0 0 w h]
  | KeyEvt Escape _ Press _ => if dbg then None else Some []
  | Close => None
  | _ => Some []
  end.

(** [for (_timestamp, evt) in glfw::flush_messages(&events)]; the boolean
    tells whether the loop was left by [break 'main]. *)
Fixpoint dispatch (dbg : build) (evts : list WindowEvent) : list effect * bool :=
  match evts with
  | [] => ([], false)
  | evt :: evts' =>
      match builtin dbg evt with
      | None => ([], true)
      | Some eff =>
          let '(t, brk) := dispatch dbg evts' in
          (eff ++ CallOnEvent evt :: t, brk)
      end
  end.

(** One observed iteration: the value [wnd.should_close()] returned and
    the events [glfw.poll_events()] delivered. *)
Definition frame := (bool * list WindowEvent)%type.

Definition frame_tail (dbg : build) : list effect :=
  [CallUpdate; CallDraw; SwapBuffers] ++ (if dbg then [ReportGlErrors] else []).

(** ['main: while !wnd.should_close() { ... }] over the observed frames;
    the boolean tells whether the loop terminated within them. *)
Fixpoint main_loop (dbg : build) (frames : list frame) : list effect * bool :=
  match frames with
  | [] => ([], false)
  | (should_close, evts) :: frames' =>
      if should_close then ([ShouldClose], true)
      else
        let '(t, brk) := dispatch dbg evts in
        if brk then (ShouldClose :: PollEvents :: t, true)
        else
          let '(t', done) := main_loop dbg frames' in
          (ShouldClose :: PollEvents :: t ++ frame_tail dbg ++ t', done)
  end.

Inductive run_result :=
| RunOk                      (* [Ok(())] *)
| RunErr (boxed : string)    (* [Err(Box<dyn Error>)] from the init error *)
| RunPending.                (* still looping after the observed frames *)

(** [_run_app_with(opts, f)]: [init_res] is what the user's init callback
    returns ([inr e] for [Err(e)]). *)
Definition run_app_with (dbg : build) (opts : AppOptions) (init_res : unit + string)
    (frames : list frame) : list effect * run_result :=
  let setup := init opts true ++ [NewRenderingContext; CallInit] in
  match init_res with
  | inr e => (setup, RunErr e)
  | inl _ =>
      let '(t, done) := main_loop dbg frames in
      (setup ++ t, if done then RunOk else RunPending)
  end.

(** [run_headless_once_with(opts, f)]. *)
Definition run_headless_once_with (opts : AppOptions) : list effect :=
  init opts false ++ [NewRenderingContext; CallHeadless].

(** The loop of [run_glfw_with(opts, f)] over the observed values of
    [wnd.should_close()]. *)
Fixpoint raw_loop (dbg : build) (frames : list bool) : list effect * bool :=
  match frames with
  | [] => ([], false)
  | should_close :: frames' =>
      if should_close then ([ShouldClose], true)
      else
        let '(t, done) := raw_loop dbg frames' in
        (ShouldClose :: PollEvents :: CallRaw :: SwapBuffers
           :: (if dbg then [ReportGlErrors] else []) ++ t, done)
  end.

Definition run_glfw_with (dbg : build) (opts : AppOptions) (frames : list bool)
  : list effect * run_result :=
  let '(t, done) := raw_loop dbg frames in
  (init opts true ++ t, if done then RunOk else RunPending).

End App.

(** ** [gl45/uniform.rs] *)
Module Uniform.

(** [UniformLocation(u32)]. *)
Record UniformLocation := mk_location { location : Z }.

(** [gl::GetUniformLocation(program, name)]: the driver answers [drv name]
    for the NUL-terminated string [name]. *)
Definition get_uniform_location_from_c_char_ptr (program : N) (name : list byte)
    (drv : list byte -> Z) : GL (option UniformLocation) :=
  emit (GetUniformLocation program name) ;;;
  let loc := drv name in
  if 0 <=? loc then ret (Some (mk_location loc)) else ret None.

(** The index of the first NUL byte. *)
Fixpoint first_nul (b : list byte) : option nat :=
  match b with
  | [] => None
  | c :: b' => if Byte.eqb c x00 then Some O
               else option_map S (first_nul b')
  end.

(** [CStr::from_bytes_with_nul]: the bytes must end with the only NUL;
    the result is the string without its terminator. *)
Definition cstr_from_bytes_with_nul (b : list byte) : option (list byte) :=
  match first_nul b with
  | Some i => if Nat.eqb (S i) (List.length b) then Some (firstn i b) else None
  | None => None
  end.

(** [CString::new]: fails when the bytes contain a NUL. *)
Definition cstring_new (b : list byte) : option (list byte) :=
  match first_nul b with Some _ => None | None => Some b end.

(** [get_uniform_location_from_bytes_with_nul]: [.unwrap()] panics. *)
Definition get_uniform_location_from_bytes_with_nul (program : N) (name : list byte)
    (drv : list byte -> Z) : GL (option UniformLocation) :=
  match cstr_from_bytes_with_nul name with
  | Some c => get_uniform_location_from_c_char_ptr program c drv
  | None => panic
  end.

(** [get_uniform_location] as compiled with [debug_assertions]: a name with
    a NUL byte panics.  (In a release build it is undefined behaviour, which
    is not modelled.) *)
Definition get_uniform_location_debug (program : N) (name : list byte)
    (drv : list byte -> Z) : GL (option UniformLocation) :=
  match cstring_new name with
  | Some c => get_uniform_location_from_c_char_ptr program c drv
  | None => panic
  end.

(** [impl SetUniform<i32> for Shader]. *)
Definition set_uniform_i32 (shader : Shader.Shader) (loc : UniformLocation) (value : Z)
  : GL unit :=
  emit (ProgramUniform1i (Shader.handle shader) (u32_as_i32 (location loc)) value).

End Uniform.

(** ** [debug_output.rs] *)
Module DebugOutput.

(** [x as u32] for an [i32] value [x]. *)
Definition i32_as_u32 (x : Z) : Z := if x <? 0 then x + 2 ^ 32 else x.

(** [init_debug_output]: [flags], [major] and [minor] are what the driver
    answers to the three [gl::GetIntegerv] queries. *)
Definition init_debug_output (flags major minor : Z) : GL bool :=
  emit (GetIntegerv 0x821E) ;;;   (* gl::CONTEXT_FLAGS *)
  let debug_context := negb (Z.land flags 0x2 =? 0) in  (* CONTEXT_FLAG_DEBUG_BIT *)
  emit (GetIntegerv 0x821B) ;;;   (* gl::MAJOR_VERSION *)
  emit (GetIntegerv 0x821C) ;;;   (* gl::MINOR_VERSION *)
  let debug_output_supported :=
    App.is_debug_output_supported (i32_as_u32 major, i32_as_u32 minor) in
  if debug_context && debug_output_supported then
    emit (Enable 0x92E0) ;;;      (* gl::DEBUG_OUTPUT *)
    emit (Enable 0x8242) ;;;      (* gl::DEBUG_OUTPUT_SYNCHRONOUS *)
    emit DebugMessageCallback ;;;
    emit (DebugMessageControl 0x1100 0x1100 0x1100 0 true) ;;;  (* gl::DONT_CARE *)
    ret true
  else ret false.

End DebugOutput.

(** * Properties *)

(** ** The structured run loop *)
Module AppFacts.
Import App.

(** Whether [evt] leaves the loop ([break 'main]) in the given build. *)
Definition is_close (dbg : build) (evt : WindowEvent) : bool :=
  match builtin dbg evt with None => true | Some _ => false end.

(** The built-in handling of an event that does not leave the loop,
    followed by its forwarding to [on_event]. *)
Definition handled (evt : WindowEvent) : list effect :=
  match evt with
  | FramebufferSize w h => [Viewport 0 0 w h; CallOnEvent evt]
  | _ => [CallOnEvent evt]
  end.

Lemma builtin_not_close dbg evt :
  is_close dbg evt = false -> builtin dbg evt = Some (removelast (handled evt)).
Proof.
  unfold is_close, builtin, handled.
  destruct evt as [w h|k sc a m| | | |]; try reflexivity.
  - destruct k, a; try reflexivity; destruct dbg; easy.
  - discriminate.
Qed.

Lemma dispatch_no_close dbg evts :
  forallb (fun x => negb (is_close dbg x)) evts = true ->
  dispatch dbg evts = (flat_map handled evts, false).
Proof.
  induction evts as [|e evts IH]; simpl; [reflexivity|].
  intros H; apply andb_prop in H as [He Hr].
  rewrite (builtin_not_close dbg e) by (now destruct (is_close dbg e)).
  rewrite (IH Hr). destruct e; reflexivity.
Qed.

Lemma dispatch_break dbg pre e post :
  forallb (fun x => negb (is_close dbg x)) pre = true ->
  is_close dbg e = true ->
  dispatch dbg (pre ++ e :: post) = (flat_map handled pre, true).
Proof.
  intros Hpre He.
  induction pre as [|x pre IH]; simpl.
  - unfold is_close in He. destruct (builtin dbg e); [discriminate|reflexivity].
  - simpl in Hpre; apply andb_prop in Hpre as [Hx Hr].
    rewrite (builtin_not_close dbg x) by (now destruct (is_close dbg x)).
    rewrite (IH Hr). destruct x; reflexivity.
Qed.

(** C1 (counterexample): a close request is dispatched in the only
    iteration, and the loop terminates without calling [update] or [draw]
    and without presenting the frame. *)
Lemma close_skips_update_draw_present :
  let '(t, done) := main_loop false [(false, [Close])] in
  done = true /\ ~ In CallUpdate t /\ ~ In CallDraw t /\ ~ In SwapBuffers t.
Proof.
  simpl. repeat split; intros H; repeat (destruct H as [H|H]; [discriminate|]); easy.
Qed.

(** C1 (amended): in an iteration that dispatches a close request (or, in
    debug builds, an escape key press), the loop is left at that event by
    [break 'main]: the events before it are handled and forwarded, and
    nothing else of the iteration runs (no [on_event] for it or for later
    events, no [update], [draw], buffer swap or error report), nor any
    later iteration. *)
Theorem main_loop_breaks_at_close (dbg : build) (pre post : list WindowEvent)
    (e : WindowEvent) (rest : list frame) :
  forallb (fun x => negb (is_close dbg x)) pre = true ->
  is_close dbg e = true ->
  main_loop dbg ((false, pre ++ e :: post) :: rest)
  = (ShouldClose :: PollEvents :: flat_map handled pre, true).
Proof.
  intros Hpre He. simpl. rewrite (dispatch_break dbg pre e post Hpre He). reflexivity.
Qed.

Lemma main_loop_breaks_at_close_witness :
  main_loop true [(false, [FramebufferSize 3 4; KeyEvt Escape 9 Press 0; Close]);
                  (false, [])]
  = ([ShouldClose; PollEvents; Viewport 0 0 3 4; CallOnEvent (FramebufferSize 3 4)],
     true).
Proof.
  apply (main_loop_breaks_at_close true [FramebufferSize 3 4] [Close]
           (KeyEvt Escape 9 Press 0) [(false, [])]); reflexivity.
Defined.

(** C3 (counterexample): a close request is not forwarded to [on_event]. *)
Lemma close_not_forwarded :
  ~ In (CallOnEvent Close) (fst (dispatch false [Close])).
Proof. simpl. easy. Qed.

(** C3 (amended): in each iteration, every polled event before the first
    close request (or, in debug builds, escape key press) gets its built-in
    handling (a resize sets the viewport) and is then forwarded to
    [on_event]: all of them when the iteration has no close request, and
    otherwise those before it, while that event and the events after it
    are not forwarded and the loop is left. *)
Theorem dispatch_forwards_before_close (dbg : build) (evts : list WindowEvent) :
  (forallb (fun x => negb (is_close dbg x)) evts = true ->
   dispatch dbg evts = (flat_map handled evts, false)) /\
  (forall pre e post,
     evts = pre ++ e :: post ->
     forallb (fun x => negb (is_close dbg x)) pre = true ->
     is_close dbg e = true ->
     dispatch dbg evts = (flat_map handled pre, true)).
Proof.
  split; [apply dispatch_no_close|].
  intros pre e post -> Hpre He. exact (dispatch_break dbg pre e post Hpre He).
Qed.

Lemma dispatch_forwards_before_close_witness :
  dispatch false [FramebufferSize 5 6; KeyEvt Escape 1 Press 0]
  = ([Viewport 0 0 5 6; CallOnEvent (FramebufferSize 5 6);
      CallOnEvent (KeyEvt Escape 1 Press 0)], false) /\
  dispatch false ([KeyEvt Escape 1 Press 0; Scroll 1 2] ++ Close :: [CursorPos 0 0])
  = ([CallOnEvent (KeyEvt Escape 1 Press 0); CallOnEvent (Scroll 1 2)], true).
Proof.
  split.
  - apply (proj1 (dispatch_forwards_before_close false
                    [FramebufferSize 5 6; KeyEvt Escape 1 Press 0])).
    reflexivity.
  - apply (proj2 (dispatch_forwards_before_close false
                    ([KeyEvt Escape 1 Press 0; Scroll 1 2] ++ Close :: [CursorPos 0 0]))
             [KeyEvt Escape 1 Press 0; Scroll 1 2] Close [CursorPos 0 0]); reflexivity.
Defined.

(** C2 (counterexample): the user's init callback fails, the run returns
    the error, and the window has been shown. *)
Lemma init_error_after_window_shown :
  let '(t, r) := run_app_with false (default_opts false) (inr "init failed"%string) [] in
  In ShowWindow t /\ r = RunErr "init failed"%string.
Proof. simpl. split; [tauto | reflexivity]. Qed.

Lemma dispatch_no_show dbg evts : ~ In ShowWindow (fst (dispatch dbg evts)).
Proof.
  induction evts as [|e evts IH]; simpl; [easy|].
  destruct (builtin dbg e) as [eff|] eqn:B; [|easy].
  destruct (dispatch dbg evts) as [t brk]. simpl in *.
  intros H. apply in_app_or in H as [H|[H|H]]; [|discriminate|exact (IH H)].
  destruct e as [w h|k sc a m| | | |]; simpl in B;
    try (injection B as <-; simpl in H; destruct H as [H|H]; [discriminate|exact H]);
    try (injection B as <-; exact H); try discriminate.
  destruct k, a, dbg; simpl in B; try discriminate; injection B as <-; exact H.
Qed.

Lemma main_loop_no_show dbg frames : ~ In ShowWindow (fst (main_loop dbg frames)).
Proof.
  induction frames as [|[sc evts] frames IH]; simpl; [easy|].
  destruct sc; [simpl; intros [H|H]; [discriminate|exact H]|].
  pose proof (dispatch_no_show dbg evts) as Hd.
  destruct (dispatch dbg evts) as [t brk]. simpl in Hd.
  destruct brk.
  - simpl. intros [H|[H|H]]; [discriminate|discriminate|exact (Hd H)].
  - destruct (main_loop dbg frames) as [t' d]. simpl in *.
    intros [H|[H|H]]; try discriminate.
    apply in_app_or in H as [H|H]; [exact (Hd H)|].
    unfold frame_tail in H. simpl in H. repeat (destruct H as [H|H]; [discriminate|]).
    apply in_app_or in H as [H|H]; [|exact (IH H)].
    destruct dbg; simpl in H; repeat (destruct H as [H|H]; [discriminate|]); exact H.
Qed.

(** C2 (amended): in every run of the structured mode the window is
    created hidden (the [Visible(false)] hint is set before the window is
    created, and no earlier hint or call shows it) and is shown once, at
    the end of the one-time setup, before the user's init callback is
    called; when init returns [Err(e)], the run returns [e] boxed, without
    entering the loop. *)
Theorem run_app_with_shows_before_init (dbg : build) (opts : AppOptions)
    (init_res : unit + string) (frames : list frame) :
  exists hints mid rest,
    fst (run_app_with dbg opts init_res frames)
      = GlfwInit :: hints ++ SetWindowHint (Visible false)
          :: CreateWindow 1280 720 CARGO_PKG_NAME
          :: mid ++ ShowWindow :: NewRenderingContext :: CallInit :: rest /\
    ~ In ShowWindow hints /\ ~ In (SetWindowHint (Visible true)) hints /\
    ~ In ShowWindow mid /\ ~ In ShowWindow rest /\
    match init_res with
    | inr e => rest = [] /\ snd (run_app_with dbg opts init_res frames) = RunErr e
    | inl _ => True
    end.
Proof.
  set (dbgout := gl_debug_output opts && is_debug_output_supported (gl_version opts)).
  exists [SetWindowHint (ContextVersion (fst (gl_version opts)) (snd (gl_version opts)));
          SetWindowHint OpenGlProfileCore; SetWindowHint (OpenGlForwardCompat true);
          SetWindowHint (OpenGlDebugContext dbgout)].
  exists ([EnablePolling; TryCenter; MakeCurrent; LoadGl]
          ++ (if dbgout then [InitDebugOutput] else [])).
  assert (Hh : forall x, In x [SetWindowHint (ContextVersion (fst (gl_version opts))
                                                (snd (gl_version opts)));
                               SetWindowHint OpenGlProfileCore;
                               SetWindowHint (OpenGlForwardCompat true);
                               SetWindowHint (OpenGlDebugContext dbgout)] ->
                    x <> ShowWindow /\ x <> SetWindowHint (Visible true)).
  { intros x H; simpl in H; repeat destruct H as [<-|H]; try easy; split; discriminate. }
  assert (Hm : ~ In ShowWindow ([EnablePolling; TryCenter; MakeCurrent; LoadGl]
                                ++ (if dbgout then [InitDebugOutput] else []))).
  { destruct dbgout; simpl; intros H; repeat (destruct H as [H|H]; [discriminate|]); exact H. }
  unfold run_app_with, init. fold dbgout. destruct init_res as [u|e].
  - pose proof (main_loop_no_show dbg frames) as Hr.
    destruct (main_loop dbg frames) as [t done].
    exists t. simpl. rewrite <- !app_assoc. simpl.
    repeat split; try exact Hm; try exact Hr; intros H; apply Hh in H; tauto.
  - exists []. simpl. rewrite <- !app_assoc. simpl.
    repeat split; try exact Hm; try easy; intros H; apply Hh in H; tauto.
Qed.

(** C8 (failing input): the window is created at 1280x720 with the
    package name as its title, whatever the options say. *)
Theorem init_ignores_title_and_size :
  let opts := mk_opts "demo" (640, 480) (4, 5) false in
  In (CreateWindow 1280 720 CARGO_PKG_NAME) (init opts false) /\
  ~ In (CreateWindow 640 480 "demo"%string) (init opts false) /\
  ~ In (CreateWindow 856 482 CARGO_PKG_NAME) (init (default_opts false) false).
Proof.
  simpl. split; [tauto|].
  split; intros H; repeat (destruct H as [H|H]; [discriminate|]); easy.
Qed.

End AppFacts.

(** ** Driver calls issued by loops *)
Module GLFacts.

Definition with_calls (s : gl_state) (cs : list gl_call) : gl_state :=
  mk_gl_state (calls s ++ cs) (store s).

Lemma with_calls_app s cs cs' : with_calls (with_calls s cs) cs' = with_calls s (cs ++ cs').
Proof. unfold with_calls; simpl. rewrite app_assoc. reflexivity. Qed.

Lemma with_calls_nil s : with_calls s [] = s.
Proof. destruct s; unfold with_calls; simpl. rewrite app_nil_r. reflexivity. Qed.

(** A loop of calls that each issue one driver call. *)
Lemma for_each_emits {A} (f : A -> GL unit) (g : A -> gl_call) (xs : list A) (s : gl_state) :
  (forall x s, f x s = (Some tt, with_calls s [g x])) ->
  for_each f xs s = (Some tt, with_calls s (map g xs)).
Proof.
  intros Hf. revert s. induction xs as [|x xs IH]; intros s; simpl.
  - rewrite with_calls_nil. reflexivity.
  - unfold bind. rewrite Hf, IH, with_calls_app. reflexivity.
Qed.

(** A loop whose body either issues one driver call or panics: when the
    loop returns, every body issued its call. *)
Lemma for_each_returns {A} (f : A -> GL unit) (g : A -> gl_call) (xs : list A)
    (s s' : gl_state) :
  (forall x s, f x s = (Some tt, with_calls s [g x]) \/ fst (f x s) = None) ->
  for_each f xs s = (Some tt, s') -> s' = with_calls s (map g xs).
Proof.
  intros Hf. revert s. induction xs as [|x xs IH]; intros s; simpl.
  - intros H. injection H as <-. rewrite with_calls_nil. reflexivity.
  - unfold bind. destruct (Hf x s) as [Hx|Hx].
    + rewrite Hx. intros H. rewrite (IH _ H), with_calls_app. reflexivity.
    + destruct (f x s) as [[[]|] s1]; simpl in Hx; [discriminate|]. discriminate.
Qed.

End GLFacts.

(** ** Buffers *)
Module BufferFacts.
Import Buffer.

Lemma usize_add_small (dbg : build) (a b : Z) :
  0 <= a -> 0 <= b -> a + b < usize_modulus -> usize_add dbg a b = ret (a + b).
Proof.
  intros Ha Hb Hab. unfold usize_add. destruct dbg.
  - replace (a + b <? usize_modulus) with true by (symmetry; apply Z.ltb_lt; lia).
    reflexivity.
  - rewrite Z.mod_small by lia. reflexivity.
Qed.

(** C4 (failing input): in a release build, an [offset] of [usize::MAX]
    with a one-byte destination overflows [offset + read_size] to [0],
    which passes the bounds check of an empty buffer: [read] returns
    without a panic (the driver rejects the negative offset and the
    destination is left as it was). *)
Theorem read_release_overflow_no_panic (h : N) (x : byte) (s : gl_state) :
  read false (mk_buffer h 0) (usize_modulus - 1) [x] s
  = (Some [x], mk_gl_state (calls s ++ [GetNamedBufferSubData h (-1) 1]) (store s)).
Proof. reflexivity. Qed.

(** Debug builds: the bounds check of [read] is exact. *)
Lemma read_debug_bounds (self : Buffer) (offset : Z) (data : list byte) (s : gl_state) :
  0 <= offset < usize_modulus -> 0 <= size self < usize_modulus ->
  (fst (read true self offset data s) = None <-> size self < offset + Z.of_nat (List.length data)).
Proof.
  intros Ho Hs. unfold read, usize_add, bind.
  destruct (Z.ltb_spec (offset + Z.of_nat (List.length data)) usize_modulus) as [Hlt|Hge].
  - unfold ret. destruct (Z.ltb_spec (size self) (offset + Z.of_nat (List.length data))).
    + split; [lia | reflexivity].
    + unfold gl_GetNamedBufferSubData.
      destruct (_ || _ || _); split; (discriminate || lia).
  - split; [lia | reflexivity].
Qed.

(** C6: [write(usage, data)] records the byte length of [data] as the
    size, and a following [read(offset, out)] with
    [offset + len(out) <= size] fills [out] with [data[offset ..
    offset + len(out)]]. *)
Theorem write_then_read (dbg : build) (b : Buffer) (usage : BufferUsage)
    (data out : list byte) (offset : Z) (s : gl_state) :
  0 <= offset ->
  offset + Z.of_nat (List.length out) <= Z.of_nat (List.length data) ->
  Z.of_nat (List.length data) < 2 ^ 63 ->
  exists s',
    (b' <- write b usage data ;; out' <- read dbg b' offset out ;; ret (b', out')) s
    = (Some (mk_buffer (handle b) (Z.of_nat (List.length data)),
             firstn (List.length out) (skipn (Z.to_nat offset) data)), s') /\
    size_of (mk_buffer (handle b) (Z.of_nat (List.length data)))
    = Z.of_nat (List.length data).
Proof.
  intros Ho Hr Hd.
  set (n := Z.of_nat (List.length data)) in *.
  set (k := Z.of_nat (List.length out)) in *.
  assert (Hk : 0 <= k) by (subst k; lia).
  set (s1 := mk_gl_state (calls s ++ [NamedBufferData (handle b) n data (gl_draw_usage usage)])
               (fun x => if (x =? handle b)%N then data else store s x)).
  assert (Hw : write b usage data s = (Some (mk_buffer (handle b) n), s1)).
  { unfold write, bind, gl_NamedBufferData, ret, usize_as_isize. cbn [handle size].
    fold n. replace (n <? 2 ^ 63) with true by (symmetry; apply Z.ltb_lt; lia). reflexivity. }
  rewrite (bind_some _ _ _ _ _ Hw).
  assert (Hadd : usize_add dbg offset k s1 = (Some (offset + k), s1)).
  { rewrite usize_add_small by (unfold usize_modulus; lia). reflexivity. }
  assert (Hread : exists s2, read dbg (mk_buffer (handle b) n) offset out s1
                   = (Some (firstn (List.length out) (skipn (Z.to_nat offset) data)), s2)).
  { unfold read. fold k.
    rewrite (bind_some _ _ _ _ _ Hadd). cbn [size handle].
    replace (n <? offset + k) with false by (symmetry; apply Z.ltb_ge; lia).
    unfold usize_as_isize.
    replace (offset <? 2 ^ 63) with true by (symmetry; apply Z.ltb_lt; lia).
    replace (k <? 2 ^ 63) with true by (symmetry; apply Z.ltb_lt; lia).
    unfold gl_GetNamedBufferSubData. cbn [store s1]. rewrite N.eqb_refl. fold n.
    replace ((offset <? 0) || (k <? 0) || (n <? offset + k)) with false
      by (symmetry; repeat apply orb_false_intro; apply Z.ltb_ge; lia).
    eexists. subst k. rewrite Nat2Z.id. reflexivity. }
  destruct Hread as [s2 Hread].
  exists s2. rewrite (bind_some _ _ _ _ _ Hread). split; reflexivity.
Qed.

Lemma write_then_read_witness :
  exists s',
    (b' <- write (mk_buffer 7 0) Static [x01; x02; x03; x04] ;;
     out' <- read true b' 1 [x00; x00] ;; ret (b', out')) (mk_gl_state [] (fun _ => []))
    = (Some (mk_buffer 7 4, [x02; x03]), s') /\ size_of (mk_buffer 7 4) = 4.
Proof.
  apply (write_then_read true (mk_buffer 7 0) Static [x01; x02; x03; x04] [x00; x00] 1
           (mk_gl_state [] (fun _ => []))); simpl; lia.
Defined.

End BufferFacts.

(** ** Vertex array descriptors *)
Module ArrayFacts.
Import Attrib Array GLFacts.

Definition bind_call (vao : N) (p : AttribBindPoint * Buffer.Buffer) : gl_call :=
  VertexArrayVertexBuffer vao (binding_index (fst p)) (Buffer.handle (snd p))
    (Z.of_N (bp_offset (fst p))) (u32_as_i32 (Z.of_N (stride (fst p)))).

Definition binding_call (vao : N) (b : AttribBinding) : gl_call :=
  VertexArrayAttribBinding vao (attrib_index b) (buffer_binding_index b).

Definition attrib_calls (vao : N) (a : AttribFormat) : list gl_call :=
  [EnableVertexArrayAttrib vao (index a);
   VertexArrayAttribFormat vao (index a) (fst (gl_size_type (kind a)))
     (snd (gl_size_type (kind a))) false (offset a)].

Lemma apply_bind_points_spec vao bufs bps (i : nat) s :
  apply_bind_points vao bufs bps i s
  = (if (List.length bps <=? List.length (skipn i bufs))%nat then Some tt else None,
     with_calls s (map (bind_call vao) (combine bps (skipn i bufs)))).
Proof.
  revert i s. induction bps as [|bp bps IH]; intros i s; simpl.
  - rewrite with_calls_nil. reflexivity.
  - unfold bind, index_buffer.
    destruct (nth_error bufs i) as [b|] eqn:Hb.
    + assert (Hs : skipn i bufs = b :: skipn (S i) bufs).
      { clear IH. revert i Hb. induction bufs as [|c bufs IHb]; intros [|i] Hb;
          simpl in *; try discriminate.
        - injection Hb as ->. reflexivity.
        - apply IHb, Hb. }
      rewrite Hs. unfold ret, bind_point_apply, emit. rewrite IH.
      simpl. unfold with_calls; simpl. rewrite <- app_assoc. reflexivity.
    + assert (Hs : skipn i bufs = []).
      { apply nth_error_None in Hb. apply skipn_all2, Hb. }
      rewrite Hs. simpl. rewrite with_calls_nil. reflexivity.
Qed.

Lemma apply_spec desc vao s :
  apply desc vao s =
  if (List.length (bind_points desc) <=? List.length (buffers desc))%nat then
    (Some tt, with_calls s (map (bind_call vao) (combine (bind_points desc) (buffers desc))
                           ++ map (binding_call vao) (bindings desc)
                           ++ flat_map (attrib_calls vao) (attribs desc)))
  else (None, with_calls s (map (bind_call vao) (combine (bind_points desc) (buffers desc)))).
Proof.
  unfold apply, bind. rewrite apply_bind_points_spec. simpl skipn.
  destruct (_ <=? _)%nat; [|reflexivity].
  rewrite (for_each_emits _ (binding_call vao)) by reflexivity.
  set (s1 := with_calls (with_calls s _) _).
  assert (Ha : forall xs s, for_each (fun a => enable a vao ;;; Attrib.apply a vao) xs s
                            = (Some tt, with_calls s (flat_map (attrib_calls vao) xs))).
  { intros xs. induction xs as [|a xs IH]; intros s0; simpl.
    - rewrite with_calls_nil. reflexivity.
    - destruct a as [i k o].
      unfold bind, enable, Attrib.apply, emit.
      destruct k; simpl; rewrite IH; unfold with_calls; simpl;
        rewrite <- !app_assoc; reflexivity. }
  rewrite Ha. subst s1. rewrite !with_calls_app. reflexivity.
Qed.

Lemma combine_firstn_r {A B} (l : list A) (l' : list B) :
  combine l (firstn (List.length l) l') = combine l l'.
Proof.
  revert l'. induction l as [|x l IH]; intros [|y l']; simpl; try reflexivity.
  rewrite IH. reflexivity.
Qed.

Lemma combine_firstn_l {A B} (l : list A) (l' : list B) :
  combine (firstn (List.length l') l) l' = combine l l'.
Proof.
  revert l'. induction l as [|x l IH]; intros [|y l']; simpl; try reflexivity.
  rewrite IH. reflexivity.
Qed.

(** C9: [apply] issues, in this order, the binding of each buffer to its
    bind point, the wiring of each attribute to its buffer binding, and the
    enabling and format of each attribute; the last two phases run only
    once every bind point has been bound (otherwise [apply] has panicked). *)
Theorem apply_binds_then_wires_then_formats (desc : VertexArrayDesc) (vao : N)
    (s : gl_state) :
  snd (apply desc vao s)
  = with_calls s (map (bind_call vao) (combine (bind_points desc) (buffers desc))
                  ++ if (List.length (bind_points desc) <=? List.length (buffers desc))%nat
                     then map (binding_call vao) (bindings desc)
                          ++ flat_map (attrib_calls vao) (attribs desc)
                     else []).
Proof.
  rewrite apply_spec. destruct (_ <=? _)%nat; simpl; [reflexivity|].
  rewrite app_nil_r. reflexivity.
Qed.

(** C10: [apply] pairs the i-th bind point with the i-th buffer.  With more
    bind points than buffers it binds the first [len(buffers)] bind points
    and then panics on [self.buffers[len(buffers)]], issuing nothing for
    the excess bind points; with fewer, the buffers past the last bind
    point are never used. *)
Theorem apply_pairs_by_position (desc : VertexArrayDesc) (vao : N) (s : gl_state) :
  let bps := bind_points desc in
  let bufs := buffers desc in
  apply desc vao s =
  if (List.length bps <=? List.length bufs)%nat then
    (Some tt, with_calls s (map (bind_call vao) (combine bps (firstn (List.length bps) bufs))
                           ++ map (binding_call vao) (bindings desc)
                           ++ flat_map (attrib_calls vao) (attribs desc)))
  else (None, with_calls s (map (bind_call vao)
                              (combine (firstn (List.length bufs) bps) bufs))).
Proof.
  simpl. rewrite apply_spec, combine_firstn_r, combine_firstn_l. reflexivity.
Qed.

End ArrayFacts.

(** ** Shader programs *)
Module ShaderFacts.
Import Shader GLFacts.

(** The calls of [init]: [link] always, [validate] after a successful link. *)
Definition init_calls (h : N) (drv : program_answer) : list gl_call :=
  [BindFragDataLocation h 0; LinkProgram h]
  ++ (if link_status drv then [ValidateProgram h] else []).

Lemma init_spec (h : N) (drv : program_answer) (s : gl_state) :
  exists r, init (mk_shader h) drv s = (Some r, with_calls s (init_calls h drv)).
Proof.
  unfold init, init_calls, bind, bind_data_locations, link, validate, emit, ret.
  cbn [handle]. unfold check_log. destruct (link_status drv).
  - destruct (validate_status drv); eexists; unfold with_calls; simpl;
      rewrite <- !app_assoc; reflexivity.
  - eexists; unfold with_calls; simpl; rewrite <- !app_assoc; reflexivity.
Qed.

Lemma attach_shader_cases dbg p x s :
  attach_shader dbg p x s = (Some tt, with_calls s [AttachShader p x])
  \/ fst (attach_shader dbg p x s) = None.
Proof.
  unfold attach_shader, debug_assert_ne, bind, emit, ret, panic.
  destruct (dbg && (p =? 0)%N); [right; reflexivity|].
  destruct (dbg && (x =? 0)%N); [right; reflexivity|]. left; reflexivity.
Qed.

Lemma detach_shader_cases dbg p x s :
  detach_shader dbg p x s = (Some tt, with_calls s [DetachShader p x])
  \/ fst (detach_shader dbg p x s) = None.
Proof.
  unfold detach_shader, debug_assert_ne, bind, emit, ret, panic.
  destruct (dbg && (p =? 0)%N); [right; reflexivity|].
  destruct (dbg && (x =? 0)%N); [right; reflexivity|]. left; reflexivity.
Qed.

Lemma attached_after_app p a xs ys :
  attached_after p a (xs ++ ys) = attached_after p (attached_after p a xs) ys.
Proof.
  revert a. induction xs as [|c xs IH]; intros a; [reflexivity|].
  destruct c; simpl; try apply IH; destruct (_ =? _)%N; apply IH.
Qed.

Lemma attached_after_attach p a hs x :
  In x (attached_after p a (map (AttachShader p) hs)) -> In x a \/ In x hs.
Proof.
  revert a. induction hs as [|y hs IH]; intros a; simpl; [tauto|].
  rewrite N.eqb_refl. intros H. destruct (IH _ H) as [Ha|Hh]; [|tauto].
  destruct (existsb (N.eqb y) a); [tauto|]. destruct Ha; tauto.
Qed.

Lemma attached_after_init p a drv : attached_after p a (init_calls p drv) = a.
Proof. unfold init_calls. destruct (link_status drv); reflexivity. Qed.

Lemma attached_after_detach p a hs x :
  In x (attached_after p a (map (DetachShader p) hs)) -> In x a /\ ~ In x hs.
Proof.
  revert a. induction hs as [|y hs IH]; intros a; simpl; [tauto|].
  rewrite N.eqb_refl. intros H. destruct (IH _ H) as [Ha Hn].
  apply filter_In in Ha as [Ha Hy]. split; [exact Ha|].
  intros [<-|Hin]; [rewrite N.eqb_refl in Hy; discriminate | tauto].
Qed.

(** C7: when [Shader::create] returns, with a program or with a link or
    validation error, it has attached every stage before the link, run the
    link (and the validation after a successful link), and then detached
    every stage: no stage is left attached to the program. *)
Theorem create_attaches_then_detaches (dbg : build) (h : N) (stages : list ShaderStage)
    (drv : program_answer) (s s' : gl_state) (r : Shader + ShaderError) :
  create dbg h stages drv s = (Some r, s') ->
  s' = with_calls s (map (AttachShader h) (map stage_handle stages)
                     ++ init_calls h drv
                     ++ map (DetachShader h) (map stage_handle stages)) /\
  attached_after h [] (map (AttachShader h) (map stage_handle stages)
                       ++ init_calls h drv
                       ++ map (DetachShader h) (map stage_handle stages)) = [].
Proof.
  set (hs := map stage_handle stages).
  unfold create. intros H. split.
  - unfold bind at 1, debug_assert_ne in H.
    destruct (dbg && (h =? 0)%N); [discriminate|]. unfold ret at 1 in H.
    unfold bind at 1 in H. fold hs in H. cbn [handle] in H.
    destruct (attach_shaders dbg h hs s) as [[[]|] s1] eqn:Ha; [|discriminate].
    apply (for_each_returns _ (AttachShader h)) in Ha; [|apply attach_shader_cases].
    destruct (init_spec h drv s1) as [res Hi].
    unfold bind at 1 in H. rewrite Hi in H.
    unfold bind at 1 in H.
    destruct (detach_shaders dbg h hs _) as [[[]|] s2] eqn:Hd; [|discriminate].
    apply (for_each_returns _ (DetachShader h)) in Hd; [|apply detach_shader_cases].
    assert (s' = s2) as ->.
    { destruct res; unfold ret in H; injection H as _ <-; reflexivity. }
    rewrite Hd, Ha, !with_calls_app. reflexivity.
  - destruct (attached_after h [] _) as [|x l] eqn:E; [reflexivity|].
    exfalso. assert (Hx : In x (x :: l)) by (left; reflexivity).
    rewrite <- E, !attached_after_app, attached_after_init in Hx.
    apply attached_after_detach in Hx as [Hx Hn].
    apply attached_after_attach in Hx as [[]|Hx]. contradiction.
Qed.

Lemma create_attaches_then_detaches_witness :
  let stages := [mk_stage 1 Vertex; mk_stage 2 Fragment] in
  let drv := mk_program_answer false (Some "syntax error"%string) false None in
  let cs := map (AttachShader 5) [1; 2]%N ++ init_calls 5 drv
            ++ map (DetachShader 5) [1; 2]%N in
  with_calls (mk_gl_state [] (fun _ => [])) cs = with_calls (mk_gl_state [] (fun _ => [])) cs
  /\ attached_after 5 [] cs = [].
Proof.
  apply (create_attaches_then_detaches true 5 [mk_stage 1 Vertex; mk_stage 2 Fragment]
           (mk_program_answer false (Some "syntax error"%string) false None)
           (mk_gl_state [] (fun _ => []))
           (with_calls (mk_gl_state [] (fun _ => []))
              (map (AttachShader 5) [1; 2]%N
               ++ init_calls 5 (mk_program_answer false (Some "syntax error"%string) false None)
               ++ map (DetachShader 5) [1; 2]%N))
           (inr (Link 5 "syntax error"%string))).
  reflexivity.
Defined.

End ShaderFacts.

(** ** Creation of handles *)
Module CreateFacts.
Import GLFacts.

Definition s0 : gl_state := mk_gl_state [] (fun _ => []).

Lemma for_each_assert_zero (hs1 hs2 : list N) (s : gl_state) :
  fst (for_each (fun h => debug_assert_ne true h 0) (hs1 ++ 0%N :: hs2) s) = None.
Proof.
  revert s. induction hs1 as [|h hs1 IH]; intros s; simpl.
  - reflexivity.
  - unfold bind at 1, debug_assert_ne. simpl.
    destruct (h =? 0)%N; [reflexivity|]. apply IH.
Qed.

(** C5 (counterexample): in a release build [VertexArray::create] returns
    a vertex array whose id is the zero the driver returned. *)
Lemma release_create_keeps_zero_id :
  Array.create false 0 s0 = (Some (Array.mk_vertex_array 0), s0).
Proof. reflexivity. Qed.

(** C5 (amended): in a debug build, a zero id obtained from the driver
    makes the [create] of every handle kind panic, so every handle it
    returns has a nonzero id; in a release build the [debug_assert_ne!]
    checks are compiled out and [create] returns a handle with id zero. *)
Theorem create_zero_id_debug_only :
  (forall hs1 hs2 s, fst (Buffer.create_multi true (hs1 ++ 0%N :: hs2) s) = None) /\
  (forall s, fst (Array.create true 0 s) = None) /\
  (forall kind src drv s, fst (Shader.stage_create true 0 kind src drv s) = None) /\
  (forall stages drv s, fst (Shader.create true 0 stages drv s) = None) /\
  (forall size fmt s, fst (Texture.create true 0 size fmt s) = None) /\
  (forall s, fst (Buffer.create_multi false [0%N] s) = Some [Buffer.mk_buffer 0 0]) /\
  (forall s, fst (Array.create false 0 s) = Some (Array.mk_vertex_array 0)) /\
  (forall kind src s, fst (Shader.stage_create false 0 kind src
                             (Shader.mk_compile_answer true None) s)
                      = Some (inl (Shader.mk_stage 0 kind))) /\
  (forall stages s, fst (Shader.create false 0 stages
                         (Shader.mk_program_answer true None true None) s)
                    = Some (inl (Shader.mk_shader 0))) /\
  (forall size fmt s, fst (Texture.create false 0 size fmt s) = Some (Texture.mk_texture 0 size)).
Proof.
  repeat split.
  - intros hs1 hs2 s. unfold Buffer.create_multi, bind.
    pose proof (for_each_assert_zero hs1 hs2 s) as H.
    destruct (for_each _ _ s) as [[[]|] s1]; simpl in H; [discriminate|reflexivity].
  - intros stages s.
    assert (Ha : forall hs s, Shader.attach_shaders false 0 hs s
                              = (Some tt, with_calls s (map (AttachShader 0) hs)))
      by (intros; apply for_each_emits; reflexivity).
    assert (Hd : forall hs s, Shader.detach_shaders false 0 hs s
                              = (Some tt, with_calls s (map (DetachShader 0) hs)))
      by (intros; apply for_each_emits; reflexivity).
    unfold Shader.create, bind at 1. simpl.
    unfold bind at 1. rewrite Ha.
    unfold bind at 1. simpl.
    unfold bind at 1. rewrite Hd. reflexivity.
Qed.

End CreateFacts.

(** ** More of the run loops *)
Module AppExtra.
Import App AppFacts.

(** The effects of one iteration that is not left by [break 'main]. *)
Definition iteration (dbg : build) (evts : list WindowEvent) : list effect :=
  ShouldClose :: PollEvents :: flat_map handled evts ++ frame_tail dbg.

Definition no_close (dbg : build) (evts : list WindowEvent) : bool :=
  forallb (fun x => negb (is_close dbg x)) evts.

Lemma main_loop_cons_open dbg evts frames :
  no_close dbg evts = true ->
  main_loop dbg ((false, evts) :: frames)
  = (iteration dbg evts ++ fst (main_loop dbg frames), snd (main_loop dbg frames)).
Proof.
  intros H. simpl. rewrite (dispatch_no_close dbg evts H).
  destruct (main_loop dbg frames). unfold iteration. rewrite <- app_assoc. reflexivity.
Qed.

(** Iterations without a close request run in full: the handled and
    forwarded events, then [update], [draw], the buffer swap and (debug
    builds) the error report, one iteration after the other, and the loop
    keeps running while [should_close] is false. *)
Theorem main_loop_full_iterations (dbg : build) (frames : list frame) :
  forallb (fun f => negb (fst f) && no_close dbg (snd f)) frames = true ->
  main_loop dbg frames = (flat_map (fun f => iteration dbg (snd f)) frames, false).
Proof.
  induction frames as [|[sc evts] frames IH]; intros H; [reflexivity|].
  simpl in H. apply andb_prop in H as [H1 H2]. apply andb_prop in H1 as [Hsc Hev].
  destruct sc; [discriminate|].
  pose proof (main_loop_cons_open dbg evts frames Hev) as E.
  rewrite (IH H2) in E. cbn [fst snd] in E. exact E.
Qed.

Lemma main_loop_full_iterations_witness :
  main_loop true [(false, [FramebufferSize 8 6]); (false, [])]
  = (flat_map (fun f => iteration true (snd f)) [(false, [FramebufferSize 8 6]); (false, [])],
     false).
Proof.
  apply (main_loop_full_iterations true); reflexivity.
Defined.

(** A resize event sets the viewport to the new size before the [draw] of
    the same iteration (when the iteration has no close request). *)
Theorem resize_before_draw (dbg : build) (evts : list WindowEvent) (w h : Z)
    (frames : list frame) :
  no_close dbg evts = true -> In (FramebufferSize w h) evts ->
  exists t1 t2,
    fst (main_loop dbg ((false, evts) :: frames))
    = ShouldClose :: PollEvents :: t1 ++ CallUpdate :: CallDraw :: t2 /\
    In (Viewport 0 0 w h) t1.
Proof.
  intros Hn Hin. rewrite (main_loop_cons_open dbg evts frames Hn). simpl fst.
  exists (flat_map handled evts),
         (SwapBuffers :: (if dbg then [ReportGlErrors] else []) ++ fst (main_loop dbg frames)).
  split.
  - unfold iteration, frame_tail. rewrite <- !app_assoc. reflexivity.
  - apply in_flat_map. exists (FramebufferSize w h). split; [exact Hin | left; reflexivity].
Qed.

Lemma resize_before_draw_witness :
  exists t1 t2,
    fst (main_loop true [(false, [CursorPos 1 1; FramebufferSize 640 480])])
    = ShouldClose :: PollEvents :: t1 ++ CallUpdate :: CallDraw :: t2 /\
    In (Viewport 0 0 640 480) t1.
Proof.
  apply (resize_before_draw true [CursorPos 1 1; FramebufferSize 640 480] 640 480 []);
    simpl; auto.
Defined.

(** In a debug build an escape key press leaves the loop exactly as a
    close request does, wherever it occurs among the polled events. *)
Theorem escape_same_as_close_debug (pre post : list WindowEvent) (sc mods : Z)
    (frames : list frame) :
  main_loop true ((false, pre ++ KeyEvt Escape sc Press mods :: post) :: frames)
  = main_loop true ((false, pre ++ Close :: post) :: frames).
Proof.
  assert (D : dispatch true (pre ++ KeyEvt Escape sc Press mods :: post)
              = dispatch true (pre ++ Close :: post)).
  { induction pre as [|x pre IH]; [reflexivity|].
    simpl. destruct (builtin true x); [|reflexivity]. rewrite IH. reflexivity. }
  simpl. rewrite D. reflexivity.
Qed.

(** In a release build an escape key press is an ordinary event: it is
    forwarded to [on_event] and the loop goes on. *)
Theorem escape_forwarded_release (sc mods : Z) (evts : list WindowEvent) :
  dispatch false (KeyEvt Escape sc Press mods :: evts)
  = (CallOnEvent (KeyEvt Escape sc Press mods) :: fst (dispatch false evts),
     snd (dispatch false evts)).
Proof. simpl. destruct (dispatch false evts). reflexivity. Qed.

(** Headless mode never shows the window (it is created hidden), never
    polls events and calls the user's closure once. *)
Theorem headless_never_shown (opts : AppOptions) :
  In (SetWindowHint (Visible false)) (run_headless_once_with opts) /\
  ~ In ShowWindow (run_headless_once_with opts) /\
  ~ In PollEvents (run_headless_once_with opts) /\
  ~ In CallInit (run_headless_once_with opts).
Proof.
  unfold run_headless_once_with, init.
  destruct (gl_debug_output opts && is_debug_output_supported (gl_version opts));
    simpl; repeat split; try tauto;
    intros H; repeat (destruct H as [H|H]; [discriminate|]); exact H.
Qed.

Definition raw_iteration (dbg : build) : list effect :=
  ShouldClose :: PollEvents :: CallRaw :: SwapBuffers
  :: (if dbg then [ReportGlErrors] else []).

(** The raw loop calls the user's closure once per iteration, followed by
    the buffer swap, until [should_close] returns true; it handles no event
    itself. *)
Theorem raw_loop_runs_until_should_close (dbg : build) (n : nat) (rest : list bool) :
  raw_loop dbg (repeat false n ++ true :: rest)
  = (List.concat (repeat (raw_iteration dbg) n) ++ [ShouldClose], true).
Proof.
  induction n as [|n IH]; [reflexivity|].
  simpl. rewrite IH. unfold raw_iteration. simpl. rewrite <- app_assoc. reflexivity.
Qed.

Ltac in_list := simpl; repeat (first [left; reflexivity | right]).
Ltac not_in H := simpl in H; repeat (destruct H as [H|H]; [discriminate|]); exact H.

(** [init] asks GLFW for a debug context, and runs [init_debug_output],
    exactly when the [gl_debug_output] option is set and the requested
    version is at least 4.3. *)
Theorem init_debug_output_iff_debug_context (opts : AppOptions) (visible : bool) :
  (In InitDebugOutput (init opts visible)
   <-> gl_debug_output opts = true /\
       (4 < fst (gl_version opts) \/ fst (gl_version opts) = 4 /\ 3 <= snd (gl_version opts)))
  /\ (In (SetWindowHint (OpenGlDebugContext true)) (init opts visible)
   <-> gl_debug_output opts = true /\
       (4 < fst (gl_version opts) \/ fst (gl_version opts) = 4 /\ 3 <= snd (gl_version opts))).
Proof.
  assert (Hc : gl_debug_output opts && is_debug_output_supported (gl_version opts) = true
               <-> gl_debug_output opts = true /\
                   (4 < fst (gl_version opts) \/
                    fst (gl_version opts) = 4 /\ 3 <= snd (gl_version opts))).
  { unfold is_debug_output_supported.
    rewrite andb_true_iff, orb_true_iff, andb_true_iff, Z.eqb_eq, Z.leb_le, Z.ltb_lt.
    tauto. }
  rewrite <- Hc. unfold init.
  destruct (gl_debug_output opts && is_debug_output_supported (gl_version opts)), visible;
    split; split; intros H;
    (solve [in_list] || reflexivity || (exfalso; not_in H) || discriminate).
Qed.

(** With [AppOptions::default()] debug output is set up in debug builds
    and not in release builds. *)
Theorem default_debug_output_follows_build (dbg : build) (visible : bool) :
  In InitDebugOutput (init (default_opts dbg) visible) <-> dbg = true.
Proof.
  unfold init, default_opts. cbn [gl_debug_output gl_version].
  destruct dbg, visible; split; intros H;
    (solve [in_list] || reflexivity || (exfalso; not_in H) || discriminate).
Qed.

End AppExtra.

(** ** More of [Buffer] *)
Module BufferExtra.
Import Buffer BufferFacts.

(** In a debug build an out-of-bounds [read] panics before any driver
    call: the destination is never partly filled. *)
Theorem read_debug_out_of_bounds (self : Buffer) (offset : Z) (data : list byte)
    (s : gl_state) :
  size self < offset + Z.of_nat (List.length data) ->
  read true self offset data s = (None, s).
Proof.
  intros H. unfold read, usize_add, bind.
  destruct (offset + Z.of_nat (List.length data) <? usize_modulus); [|reflexivity].
  unfold ret. replace (size self <? offset + Z.of_nat (List.length data)) with true
    by (symmetry; apply Z.ltb_lt; exact H).
  reflexivity.
Qed.

Lemma read_debug_out_of_bounds_witness :
  read true (mk_buffer 3 4) 2 [x00; x00; x00] (mk_gl_state [] (fun _ => []))
  = (None, mk_gl_state [] (fun _ => [])).
Proof. apply read_debug_out_of_bounds. simpl. lia. Defined.

Lemma write_spec (b : Buffer) (usage : BufferUsage) (data : list byte) (s : gl_state) :
  Z.of_nat (List.length data) < 2 ^ 63 ->
  write b usage data s
  = (Some (mk_buffer (handle b) (Z.of_nat (List.length data))),
     mk_gl_state (calls s ++ [NamedBufferData (handle b) (Z.of_nat (List.length data)) data
                                (gl_draw_usage usage)])
                 (fun x => if (x =? handle b)%N then data else store s x)).
Proof.
  intros H. unfold write, bind, gl_NamedBufferData, ret, usize_as_isize. cbn [handle size].
  replace (Z.of_nat (List.length data) <? 2 ^ 63) with true
    by (symmetry; apply Z.ltb_lt; lia). reflexivity.
Qed.

(** A [read] of [len(out)] bytes at [offset] inside the recorded size
    returns the bytes the driver holds for the buffer there. *)
Lemma read_in_bounds (dbg : build) (b : Buffer) (offset : Z) (out : list byte)
    (s : gl_state) :
  0 <= offset -> offset + Z.of_nat (List.length out) <= size b ->
  size b = Z.of_nat (List.length (store s (handle b))) -> size b < 2 ^ 63 ->
  fst (read dbg b offset out s)
  = Some (firstn (List.length out) (skipn (Z.to_nat offset) (store s (handle b)))).
Proof.
  intros Ho Hr Hs Hb. set (k := Z.of_nat (List.length out)) in *.
  assert (Hk : 0 <= k) by (subst k; lia).
  unfold read. fold k.
  rewrite (bind_some _ _ s (offset + k) s)
    by (rewrite usize_add_small by (unfold usize_modulus; lia); reflexivity).
  replace (size b <? offset + k) with false by (symmetry; apply Z.ltb_ge; lia).
  unfold usize_as_isize.
  replace (offset <? 2 ^ 63) with true by (symmetry; apply Z.ltb_lt; lia).
  replace (k <? 2 ^ 63) with true by (symmetry; apply Z.ltb_lt; lia).
  unfold gl_GetNamedBufferSubData. rewrite <- Hs.
  replace ((offset <? 0) || (k <? 0) || (size b <? offset + k)) with false
    by (symmetry; repeat apply orb_false_intro; apply Z.ltb_ge; lia).
  subst k. rewrite Nat2Z.id. reflexivity.
Qed.

(** A second [write] replaces the whole contents: a following [read]
    sees only the second data, and the recorded size is its length. *)
Theorem write_write_read (dbg : build) (b : Buffer) (u1 u2 : BufferUsage)
    (d1 d2 out : list byte) (offset : Z) (s : gl_state) :
  0 <= offset -> offset + Z.of_nat (List.length out) <= Z.of_nat (List.length d2) ->
  Z.of_nat (List.length d1) < 2 ^ 63 -> Z.of_nat (List.length d2) < 2 ^ 63 ->
  let run := (b1 <- write b u1 d1 ;; b2 <- write b1 u2 d2 ;;
              o <- read dbg b2 offset out ;; ret (size_of b2, o)) in
  fst (run s) = Some (Z.of_nat (List.length d2),
                      firstn (List.length out) (skipn (Z.to_nat offset) d2)).
Proof.
  intros Ho Hr H1 H2 run. subst run.
  rewrite (bind_some _ _ _ _ _ (write_spec b u1 d1 s H1)).
  rewrite (bind_some _ _ _ _ _ (write_spec _ u2 d2 _ H2)).
  unfold bind at 1.
  rewrite (surjective_pairing (read dbg _ offset out _)).
  rewrite read_in_bounds; cbn [handle size store]; try rewrite N.eqb_refl; try lia.
  reflexivity.
Qed.

Lemma write_write_read_witness :
  fst ((b1 <- write (mk_buffer 1 0) Stream [x01; x02] ;;
        b2 <- write b1 Dynamic [x07; x08; x09] ;;
        o <- read false b2 1 [x00; x00] ;; ret (size_of b2, o))
         (mk_gl_state [] (fun _ => [])))
  = Some (3, [x08; x09]).
Proof.
  apply (write_write_read false (mk_buffer 1 0) Stream Dynamic [x01; x02] [x07; x08; x09]
           [x00; x00] 1 (mk_gl_state [] (fun _ => []))); simpl; lia.
Defined.




End BufferExtra.

(** ** More of [Texture] *)
Module TextureExtra.
Import Texture GLFacts.

Definition sub_image_call (self : Texture) (x y w h : Z) (format : PixelFormat) : gl_call :=
  TextureSubImage2D (handle self) 0 (u32_as_i32 x) (u32_as_i32 y)
    (u32_as_i32 w) (u32_as_i32 h) (pixel_format_gl format) 0x1401.

Ltac decide_cmps :=
  repeat (match goal with
          | |- context [?a <? ?b] => destruct (Z.ltb_spec a b)
          | |- context [?a <=? ?b] => destruct (Z.leb_spec a b)
          end; cbn -[Z.ltb Z.leb Z.add Z.mul Z.pow Z.of_nat]; try reflexivity; try lia).

(** A release build checks nothing: the upload is one driver call. *)
Theorem upload_release_never_panics (self : Texture) (x y w h : Z) (format : PixelFormat)
    (pixels : list byte) (s : gl_state) :
  upload_sub_image_data false self (x, y) (w, h) format pixels s
  = (Some tt, with_calls s [sub_image_call self x y w h format]).
Proof. reflexivity. Qed.

(** Debug builds: the checks of [upload_sub_image_data] in closed form,
    for [u32] arguments and a texture of [u32] size. *)
Lemma upload_debug_spec (self : Texture) (x y w h : Z) (format : PixelFormat)
    (pixels : list byte) (s : gl_state) :
  0 <= x < u32_modulus -> 0 <= y < u32_modulus ->
  0 <= w < u32_modulus -> 0 <= h < u32_modulus ->
  0 <= fst (size self) < u32_modulus -> 0 <= snd (size self) < u32_modulus ->
  upload_sub_image_data true self (x, y) (w, h) format pixels s
  = if (w * h <=? Z.of_nat (List.length pixels))
       && (x <? i32_MAX) && (y <? i32_MAX) && (w <? i32_MAX) && (h <? i32_MAX)
       && (x + w <=? fst (size self)) && (y + h <=? snd (size self))
       && (fst (size self) * snd (size self) <? u32_modulus)
    then (Some tt, with_calls s [sub_image_call self x y w h format])
    else (None, s).
Proof.
  destruct self as [hd [sx sy]]. cbn [fst snd size].
  intros Hx Hy Hw Hh Hsx Hsy.
  unfold upload_sub_image_data, upload_sub_image_data_from_ptr, debug_assert,
    u32_add_checked, u32_mul_checked, bind, ret, panic, emit, with_calls, sub_image_call.
  cbn [fst snd]. unfold u32_modulus, i32_MAX in *.
  decide_cmps; exfalso; assert (w * h <= sx * sy) by (apply Z.mul_le_mono_nonneg; lia); lia.
Qed.

(** Debug builds: an upload either issues its one [TextureSubImage2D] call
    or panics before any call; it succeeds exactly when the slice holds at
    least [width * height] bytes, each coordinate is below [i32::MAX], the
    rectangle lies inside the texture and the texture's pixel count fits in
    a [u32] (the area assertion itself can then never fail). *)
Theorem upload_debug_iff (self : Texture) (x y w h : Z) (format : PixelFormat)
    (pixels : list byte) (s : gl_state) :
  0 <= x < u32_modulus -> 0 <= y < u32_modulus ->
  0 <= w < u32_modulus -> 0 <= h < u32_modulus ->
  0 <= fst (size self) < u32_modulus -> 0 <= snd (size self) < u32_modulus ->
  (upload_sub_image_data true self (x, y) (w, h) format pixels s
     = (Some tt, with_calls s [sub_image_call self x y w h format])
   <-> w * h <= Z.of_nat (List.length pixels)
       /\ x < i32_MAX /\ y < i32_MAX /\ w < i32_MAX /\ h < i32_MAX
       /\ x + w <= fst (size self) /\ y + h <= snd (size self)
       /\ fst (size self) * snd (size self) < u32_modulus)
  /\ (upload_sub_image_data true self (x, y) (w, h) format pixels s = (None, s)
      \/ upload_sub_image_data true self (x, y) (w, h) format pixels s
         = (Some tt, with_calls s [sub_image_call self x y w h format])).
Proof.
  intros Hx Hy Hw Hh Hsx Hsy.
  rewrite (upload_debug_spec self x y w h format pixels s Hx Hy Hw Hh Hsx Hsy).
  match goal with |- context [if ?c then _ else _] => destruct c eqn:E end.
  - rewrite !andb_true_iff, !Z.leb_le, !Z.ltb_lt in E.
    split; [split; [intros _; tauto | reflexivity] | right; reflexivity].
  - split; [split; [discriminate|] | left; reflexivity].
    intros Hc. apply not_true_iff_false in E. exfalso. apply E.
    rewrite !andb_true_iff, !Z.leb_le, !Z.ltb_lt. tauto.
Qed.

Lemma upload_debug_iff_witness :
  upload_sub_image_data true (mk_texture 5 (4, 4)) (1, 2) (3, 2) Rgba (repeat x00 6)
    (mk_gl_state [] (fun _ => []))
  = (Some tt, with_calls (mk_gl_state [] (fun _ => []))
                [sub_image_call (mk_texture 5 (4, 4)) 1 2 3 2 Rgba]).
Proof.
  apply (upload_debug_iff (mk_texture 5 (4, 4)) 1 2 3 2 Rgba (repeat x00 6)
           (mk_gl_state [] (fun _ => []))); unfold u32_modulus, i32_MAX; simpl; lia.
Defined.

(** Debug builds: on a texture whose pixel count [size.0 * size.1]
    overflows a [u32], every sub-image upload panics, with no driver call. *)
Theorem upload_debug_large_texture_panics (self : Texture) (xy wh : Z * Z)
    (format : PixelFormat) (pixels : list byte) (s : gl_state) :
  u32_modulus <= fst (size self) * snd (size self) ->
  upload_sub_image_data true self xy wh format pixels s = (None, s).
Proof.
  destruct self as [hd [sx sy]], xy as [x y], wh as [w h]. cbn [fst snd size].
  intros Hbig.
  unfold upload_sub_image_data, upload_sub_image_data_from_ptr, debug_assert,
    u32_add_checked, u32_mul_checked, bind, ret, panic, emit.
  cbn [fst snd].
  replace (sx * sy <? u32_modulus) with false by (symmetry; apply Z.ltb_ge; lia).
  decide_cmps; reflexivity.
Qed.

Lemma upload_debug_large_texture_panics_witness :
  upload_sub_image_data true (mk_texture 1 (65536, 65536)) (0, 0) (1, 1) R [x00]
    (mk_gl_state [] (fun _ => [])) = (None, mk_gl_state [] (fun _ => [])).
Proof.
  apply upload_debug_large_texture_panics. unfold u32_modulus. simpl. lia.
Defined.


End TextureExtra.

(** ** More of [Shader] *)
Module ShaderExtra.
Import Shader GLFacts.

Lemma bind_fst_some {A B} (m : GL A) (k : A -> GL B) (s : gl_state) (b : B) :
  fst (bind m k s) = Some b ->
  exists a s1, m s = (Some a, s1) /\ fst (k a s1) = Some b.
Proof.
  unfold bind. destruct (m s) as [[a|] s1]; [|discriminate]. intros H. eauto.
Qed.

Definition log_or_default (log : option String.string) : String.string :=
  match log with Some l => l | None => no_log end.

(** What [Shader::create] returns for the driver's answers. *)
Definition create_outcome (h : N) (drv : program_answer) : Shader + ShaderError :=
  if link_status drv then
    if validate_status drv then inl (mk_shader h)
    else inr (Validation h (log_or_default (validate_log drv)))
  else inr (Link h (log_or_default (link_log drv))).

Lemma init_result (h : N) (drv : program_answer) (s : gl_state) :
  fst (init (mk_shader h) drv s)
  = Some (match create_outcome h drv with inl _ => inl tt | inr e => inr e end).
Proof.
  unfold init, create_outcome, log_or_default, bind, bind_data_locations, link,
    validate, emit, ret, check_log.
  destruct (link_status drv), (validate_status drv); reflexivity.
Qed.

(** [Shader::create] returns the program when linking and validation
    both succeed, a [Link] error carrying the program id and the link log
    (["[no log]"] when empty) when linking fails, and a [Validation] error
    when linking succeeds but validation fails. *)
Theorem create_result (dbg : build) (h : N) (stages : list ShaderStage)
    (drv : program_answer) (s : gl_state) (r : Shader + ShaderError) :
  fst (create dbg h stages drv s) = Some r -> r = create_outcome h drv.
Proof.
  unfold create. intros H.
  apply bind_fst_some in H as (u & s1 & _ & H).
  apply bind_fst_some in H as (u2 & s2 & _ & H).
  apply bind_fst_some in H as (res & s3 & Hi & H).
  apply bind_fst_some in H as (u3 & s4 & _ & H).
  pose proof (init_result h drv s2) as Hr. cbn [handle] in Hi.
  rewrite Hi in Hr. cbn [fst] in Hr. injection Hr as ->.
  unfold create_outcome in *.
  destruct (link_status drv), (validate_status drv); cbn in H; congruence.
Qed.

Lemma create_result_witness :
  fst (create true 3 [mk_stage 1 Vertex; mk_stage 2 Fragment]
         (mk_program_answer true None false None) (mk_gl_state [] (fun _ => [])))
  = Some (inr (Validation 3 no_log)) /\
  inr (Validation 3 no_log)
  = create_outcome 3 (mk_program_answer true None false None).
Proof.
  split; [reflexivity|].
  apply (create_result true 3 [mk_stage 1 Vertex; mk_stage 2 Fragment]
           (mk_program_answer true None false None) (mk_gl_state [] (fun _ => []))).
  reflexivity.
Defined.

(** [ShaderStage::create] uploads the source and compiles it, then returns
    the stage when the compile status is true and otherwise a [Compile]
    error carrying the stage's id, its kind and the info log (["[no log]"]
    when empty); in a debug build an id of 0 panics before any call. *)
Theorem stage_create_result (dbg : build) (h : N) (kind : ShaderStageKind)
    (source : String.string) (drv : compile_answer) (s : gl_state) :
  stage_create dbg h kind source drv s
  = if dbg && (h =? 0)%N then (None, s)
    else (Some (if compile_status drv then inl (mk_stage h kind)
                else inr (Compile h kind (log_or_default (compile_log drv)))),
          with_calls s [ShaderSource h source; CompileShader h]).
Proof.
  unfold stage_create, compile, debug_assert_ne, log_or_default, bind, emit, ret, panic,
    with_calls.
  destruct (dbg && (h =? 0)%N); [reflexivity|]. cbn.
  rewrite <- app_assoc. destruct (compile_status drv); reflexivity.
Qed.

End ShaderExtra.

(** ** More of [Uniform] *)
Module UniformExtra.
Import Uniform GLFacts.

Lemma byte_eqb_spec (c d : byte) : reflect (c = d) (Byte.eqb c d).
Proof.
  destruct (Byte.eqb c d) eqn:E; constructor;
    [apply Byte.byte_dec_bl | apply Byte.eqb_false]; exact E.
Qed.

Lemma first_nul_none (b : list byte) : ~ In x00 b -> first_nul b = None.
Proof.
  induction b as [|c b IH]; intros H; [reflexivity|]. simpl.
  destruct (byte_eqb_spec c x00) as [->|_]; [exfalso; apply H; left; reflexivity|].
  rewrite IH; [reflexivity|]. intros Hin; apply H; right; exact Hin.
Qed.

Lemma first_nul_in (b : list byte) : In x00 b -> first_nul b <> None.
Proof.
  induction b as [|c b IH]; intros H; [destruct H|]. simpl.
  destruct (byte_eqb_spec c x00) as [_|Hc]; [discriminate|].
  destruct H as [H|H]; [congruence|].
  destruct (first_nul b); [discriminate | exfalso; exact (IH H eq_refl)].
Qed.

Lemma first_nul_app_nul (name : list byte) :
  ~ In x00 name -> first_nul (name ++ [x00]) = Some (List.length name).
Proof.
  induction name as [|c name IH]; intros H; [reflexivity|]. simpl.
  destruct (byte_eqb_spec c x00) as [->|_]; [exfalso; apply H; left; reflexivity|].
  rewrite IH; [reflexivity|]. intros Hin; apply H; right; exact Hin.
Qed.

Lemma first_nul_some (b : list byte) (i : nat) :
  first_nul b = Some i ->
  exists pre post, b = pre ++ x00 :: post /\ List.length pre = i /\ ~ In x00 pre.
Proof.
  revert i. induction b as [|c b IH]; intros i H; [discriminate|]. simpl in H.
  destruct (byte_eqb_spec c x00) as [->|Hc].
  - injection H as <-. exists [], b. simpl. tauto.
  - destruct (first_nul b) as [j|] eqn:E; [|discriminate]. injection H as <-.
    destruct (IH j eq_refl) as (pre & post & -> & Hl & Hn).
    exists (c :: pre), post. simpl. split; [reflexivity|]. split; [lia|].
    intros [Heq|Hin]; [congruence | tauto].
Qed.

Lemma cstr_from_bytes_with_nul_spec (b name : list byte) :
  cstr_from_bytes_with_nul b = Some name <-> b = name ++ [x00] /\ ~ In x00 name.
Proof.
  split.
  - unfold cstr_from_bytes_with_nul. destruct (first_nul b) as [i|] eqn:E; [|discriminate].
    destruct (Nat.eqb_spec (S i) (List.length b)) as [Hl|]; [|discriminate].
    intros H. injection H as <-.
    destruct (first_nul_some b i E) as (pre & post & -> & <- & Hn).
    rewrite length_app in Hl. simpl in Hl.
    destruct post; [|simpl in Hl; lia].
    rewrite firstn_app, firstn_all, Nat.sub_diag, app_nil_r. tauto.
  - intros [-> Hn]. unfold cstr_from_bytes_with_nul. rewrite (first_nul_app_nul _ Hn).
    rewrite length_app, Nat.add_comm. simpl. rewrite Nat.eqb_refl.
    rewrite firstn_app, firstn_all, Nat.sub_diag, app_nil_r. reflexivity.
Qed.

(** A uniform lookup returns [Some] exactly when the driver's location is
    non-negative, and setting an [i32] uniform at that location passes the
    driver's location back unchanged; a missing uniform is never set. *)
Theorem lookup_then_set_i32 (program : N) (name : list byte) (drv : list byte -> Z)
    (value : Z) (s : gl_state) :
  drv name < 2 ^ 31 ->
  (l <- get_uniform_location_from_c_char_ptr program name drv ;;
   match l with
   | Some loc => set_uniform_i32 (Shader.mk_shader program) loc value ;;; ret true
   | None => ret false
   end) s
  = if 0 <=? drv name
    then (Some true, with_calls s [GetUniformLocation program name;
                                   ProgramUniform1i program (drv name) value])
    else (Some false, with_calls s [GetUniformLocation program name]).
Proof.
  intros Hd.
  unfold get_uniform_location_from_c_char_ptr, set_uniform_i32, u32_as_i32, bind, emit, ret,
    with_calls.
  destruct (Z.leb_spec 0 (drv name)); cbn [location Shader.handle calls store].
  - replace (drv name <? 2 ^ 31) with true by (symmetry; apply Z.ltb_lt; exact Hd).
    rewrite <- app_assoc. reflexivity.
  - reflexivity.
Qed.

Lemma lookup_then_set_i32_witness :
  (l <- get_uniform_location_from_c_char_ptr 9 [x75] (fun _ => 2) ;;
   match l with
   | Some loc => set_uniform_i32 (Shader.mk_shader 9) loc 7 ;;; ret true
   | None => ret false
   end) (mk_gl_state [] (fun _ => []))
  = (Some true, with_calls (mk_gl_state [] (fun _ => []))
                  [GetUniformLocation 9 [x75]; ProgramUniform1i 9 2 7]).
Proof. apply (lookup_then_set_i32 9 [x75] (fun _ => 2) 7). lia. Defined.

(** [get_uniform_location_from_bytes_with_nul] accepts a name followed by
    one NUL byte and looks up the name without its terminator. *)
Theorem from_bytes_with_nul_accepts (program : N) (name : list byte)
    (drv : list byte -> Z) (s : gl_state) :
  ~ In x00 name ->
  get_uniform_location_from_bytes_with_nul program (name ++ [x00]) drv s
  = get_uniform_location_from_c_char_ptr program name drv s.
Proof.
  intros Hn. unfold get_uniform_location_from_bytes_with_nul.
  replace (cstr_from_bytes_with_nul (name ++ [x00])) with (Some name)
    by (symmetry; apply cstr_from_bytes_with_nul_spec; tauto).
  reflexivity.
Qed.

Lemma from_bytes_with_nul_accepts_witness :
  get_uniform_location_from_bytes_with_nul 1 ([x61; x62] ++ [x00]) (fun _ => 0)
    (mk_gl_state [] (fun _ => []))
  = get_uniform_location_from_c_char_ptr 1 [x61; x62] (fun _ => 0)
      (mk_gl_state [] (fun _ => [])).
Proof.
  apply from_bytes_with_nul_accepts. simpl. intros [H|[H|H]]; (discriminate || exact H).
Defined.

(** Any other byte string (no terminating NUL, or a NUL inside) makes
    [get_uniform_location_from_bytes_with_nul] panic before the driver is
    asked. *)
Theorem from_bytes_with_nul_rejects (program : N) (b : list byte)
    (drv : list byte -> Z) (s : gl_state) :
  (forall name, ~ In x00 name -> b <> name ++ [x00]) ->
  get_uniform_location_from_bytes_with_nul program b drv s = (None, s).
Proof.
  intros Hb. unfold get_uniform_location_from_bytes_with_nul.
  destruct (cstr_from_bytes_with_nul b) as [name|] eqn:E; [|reflexivity].
  apply cstr_from_bytes_with_nul_spec in E as [E Hn]. exfalso. exact (Hb name Hn E).
Qed.

Lemma from_bytes_with_nul_rejects_witness :
  get_uniform_location_from_bytes_with_nul 1 [x61; x00; x62; x00] (fun _ => 0)
    (mk_gl_state [] (fun _ => []))
  = (None, mk_gl_state [] (fun _ => [])).
Proof.
  apply from_bytes_with_nul_rejects. intros name Hn E.
  destruct name as [|c1 [|c2 [|c3 [|c4 name]]]]; simpl in E; try discriminate.
  - injection E as E1 E2 E3. subst c2. apply Hn. simpl. tauto.
  - injection E as _ _ _ E. destruct name; discriminate.
Defined.

(** [get_uniform_location] (debug build) panics on a name holding a NUL
    byte, before the driver is asked; any other name is looked up as is. *)
Theorem get_uniform_location_nul (program : N) (name : list byte)
    (drv : list byte -> Z) (s : gl_state) :
  get_uniform_location_debug program name drv s
  = if existsb (Byte.eqb x00) name then (None, s)
    else get_uniform_location_from_c_char_ptr program name drv s.
Proof.
  unfold get_uniform_location_debug, cstring_new.
  destruct (existsb (Byte.eqb x00) name) eqn:E.
  - apply existsb_exists in E as (c & Hin & Hc). apply Byte.byte_dec_bl in Hc. subst c.
    destruct (first_nul name) eqn:F; [reflexivity|].
    exfalso. exact (first_nul_in name Hin F).
  - rewrite first_nul_none; [reflexivity|]. intros Hin.
    assert (existsb (Byte.eqb x00) name = true) by
      (apply existsb_exists; exists x00; split; [exact Hin | apply Byte.byte_dec_lb; reflexivity]).
    congruence.
Qed.

End UniformExtra.

(** ** More of [debug_output.rs] *)
Module DebugOutputExtra.
Import DebugOutput GLFacts.

Lemma debug_bit (flags : Z) : negb (Z.land flags 0x2 =? 0) = Z.testbit flags 1.
Proof.
  destruct (Z.testbit flags 1) eqn:E.
  - apply negb_true_iff, Z.eqb_neq. intros H.
    assert (Z.testbit (Z.land flags 2) 1 = false) by (rewrite H; reflexivity).
    rewrite Z.land_spec, E in H0. discriminate.
  - apply negb_false_iff, Z.eqb_eq. apply Z.bits_inj'. intros n Hn.
    rewrite Z.land_spec, Z.bits_0.
    destruct (Z.eq_dec n 1) as [->|Hne]; [rewrite E; reflexivity|].
    change 2 with (2 ^ 1). rewrite Z.pow2_bits_false by lia. apply andb_false_r.
Qed.

(** [init_debug_output] always queries the context flags and the version;
    it enables debug output (both capabilities, the callback and the
    message filter), and returns [true], exactly when the context has the
    debug bit and the version is at least 4.3. *)
Theorem init_debug_output_spec (flags major minor : Z) (s : gl_state) :
  0 <= major -> 0 <= minor ->
  init_debug_output flags major minor s
  = let queries := [GetIntegerv 0x821E; GetIntegerv 0x821B; GetIntegerv 0x821C] in
    if Z.testbit flags 1 && ((4 <? major) || (major =? 4) && (3 <=? minor))
    then (Some true, with_calls s (queries ++ [Enable 0x92E0; Enable 0x8242;
                                     DebugMessageCallback;
                                     DebugMessageControl 0x1100 0x1100 0x1100 0 true]))
    else (Some false, with_calls s queries).
Proof.
  intros Hma Hmi.
  unfold init_debug_output, App.is_debug_output_supported, i32_as_u32, bind, emit, ret,
    with_calls.
  rewrite debug_bit. cbn [fst snd calls store].
  replace (major <? 0) with false by (symmetry; apply Z.ltb_ge; lia).
  replace (minor <? 0) with false by (symmetry; apply Z.ltb_ge; lia).
  rewrite (orb_comm ((major =? 4) && (3 <=? minor))).
  destruct (Z.testbit flags 1 && _); cbn; rewrite <- !app_assoc; reflexivity.
Qed.

Lemma init_debug_output_spec_witness :
  fst (init_debug_output 2 4 6 (mk_gl_state [] (fun _ => []))) = Some true.
Proof.
  rewrite (init_debug_output_spec 2 4 6); [reflexivity | lia | lia].
Defined.

End DebugOutputExtra.
